(** * reworq-api: credential custody, refresh protocol and calendar proxy

    A shallow embedding of
      - [lib/utils.ts]        ([authorizeUserAccess], [authorizeAdminAccess]),
      - [lib/googleapis.ts]   ([ensureFreshAccessToken], [refreshAndSaveTokens],
                               [getGoogleService], [getGoogleServiceByUserId],
                               [getGoogleOAuthUrl]),
      - [services/google.ts]  (the operations of [GoogleService]),
      - [controllers/platforms/google.ts] (the six controllers),
    followed by the properties the specification states about them.

    Asynchronous functions become computations over an explicit [World]
    (the Mongo collection, the documents held in memory, a trace of every
    store / provider access and a clock); a JavaScript [throw] keeps the
    effects performed so far.  What the code awaits runs in sequence.  The
    one thing it does not await, the ["tokens"] listener, runs up to its
    own [await] when the event fires and is then kept in the world as a
    pending write, which a later turn of the event loop ([settle])
    applies or rejects. *)

From Stdlib Require Import String Ascii ZArith List Bool Lia.
From Stdlib Require Import DecimalString.
Import ListNotations.

Local Open Scope string_scope.
Local Open Scope list_scope.
Local Open Scope Z_scope.

(* ------------------------------------------------------------------ *)
(** ** JavaScript values used by the code *)

(** A thrown value.  [new Error(msg)] has no [response]; the errors of the
    HTTP layer of the provider SDK carry [err.response.data.error]. *)
Record JsError : Type := mkJsError
  { message : string;
    response_data_error : option string   (* err?.response?.data?.error *) }.

Definition Error (msg : string) : JsError :=
  {| message := msg; response_data_error := None |}.

Definition RangeError (msg : string) : JsError :=
  {| message := msg; response_data_error := None |}.

(** A user / document id.  [types/user.ts] declares [_id : ObjectId]; the
    tests of the security guide build requests whose [_id] is a plain
    string.  Both have a [toString()]. *)
Inductive Id : Type :=
| ObjectId (hex : string)
| IdString (s : string).

Definition Id_toString (i : Id) : string :=
  match i with ObjectId h => h | IdString s => s end.

(** Truthiness ([!x] is its negation). *)
Definition truthy_string (s : string) : bool :=
  match s with EmptyString => false | _ => true end.

Definition truthy_Id (i : Id) : bool :=
  match i with ObjectId _ => true | IdString s => truthy_string s end.

Definition truthy_opt_string (o : option string) : bool :=
  match o with Some s => truthy_string s | None => false end.

Definition truthy_number (z : Z) : bool := negb (z =? 0).

(** [a === b] on [string | undefined]. *)
Definition opt_string_eqb (a b : option string) : bool :=
  match a, b with
  | Some x, Some y => String.eqb x y
  | None, None => true
  | _, _ => false
  end.

(** [Date] objects are represented by their time value (milliseconds since
    the epoch).  A [Date] is valid when the time value is within
    8.64e15 ms of the epoch; [toISOString] throws on the others. *)
Definition Date := Z.

Definition Date_valid (t : Z) : bool := Z.abs t <=? 8640000000000000.

(** JSON-like values: request bodies and the request body of
    [events.insert].  An object is the sequence of its property
    assignments, a later assignment of a key overriding an earlier one, so
    that an object literal with spreads is a concatenation. *)
#[local] Unset Elimination Schemes.
Inductive JsValue : Type :=
| JsUndefined
| JsNull
| JsBool (b : bool)
| JsNumber (z : Z)
| JsString (s : string)
| JsArray (items : list JsValue)
| JsObject (fields : list (string * JsValue)).
#[local] Set Elimination Schemes.

Definition JsObj := list (string * JsValue).

(* ------------------------------------------------------------------ *)
(** ** The request context ([types/user.ts], [AuthRequest]) *)

Record User : Type := mkUser
  { _id : Id;
    email : string }.

Record AuthRequest : Type := mkAuthRequest
  { user : option User;
    body : JsObj }.

(* ------------------------------------------------------------------ *)
(** ** lib/utils.ts *)

(** Synchronous code: returns or throws. *)
Inductive Outcome (A : Type) : Type :=
| Returned (a : A)
| Thrown (e : JsError).
Arguments Returned {A} a.
Arguments Thrown {A} e.

Definition authorizeUserAccess (req : AuthRequest) (resourceUserId : string)
  : Outcome bool :=
  match user req with
  | None => Thrown (Error "User not authenticated")
  | Some u =>
      if negb (truthy_Id (_id u)) then Thrown (Error "User not authenticated")
      else if negb (String.eqb (Id_toString (_id u)) resourceUserId)
      then Thrown (Error "Unauthorized: Cannot access another user's resources")
      else Returned true
  end.

(** The principal of a request: present when the session layer attached a
    user whose id is truthy. *)
Definition principal (req : AuthRequest) : option Id :=
  match user req with
  | Some u => if truthy_Id (_id u) then Some (_id u) else None
  | None => None
  end.

(* ------------------------------------------------------------------ *)
(** ** Strings and objects *)

(** A string is the sequence of bytes of its UTF-8 encoding, as the
    string literals of this file are: a character of JavaScript outside
    ASCII is two or three bytes here (four for a surrogate pair).

    [String.prototype.trim] strips white space and line terminators:
    TAB, LF, VT, FF, CR and SPACE, which are one byte; U+00A0, which is
    [C2 A0]; and U+1680, U+2000..U+200A, U+2028, U+2029, U+202F, U+205F,
    U+3000 and U+FEFF, which are three bytes each. *)
Definition is_white_space_1 (a : ascii) : bool :=
  let a := nat_of_ascii a in
  ((9 <=? a) && (a <=? 13) || (a =? 32))%nat.

Definition is_white_space_2 (a b : ascii) : bool :=
  ((nat_of_ascii a =? 194) && (nat_of_ascii b =? 160))%nat.

Definition is_white_space_3 (a b c : ascii) : bool :=
  let a := nat_of_ascii a in
  let b := nat_of_ascii b in
  let c := nat_of_ascii c in
  ((a =? 225) && (b =? 154) && (c =? 128)                     (* U+1680 *)
   || (a =? 226) && (b =? 128)
      && ((128 <=? c) && (c <=? 138)                          (* U+2000..U+200A *)
          || (c =? 168) || (c =? 169) || (c =? 175))          (* U+2028, U+2029, U+202F *)
   || (a =? 226) && (b =? 129) && (c =? 159)                  (* U+205F *)
   || (a =? 227) && (b =? 128) && (c =? 128)                  (* U+3000 *)
   || (a =? 239) && (b =? 187) && (c =? 191))%nat.            (* U+FEFF *)

(** Strips the white space a string starts with.  With [backwards] the
    string is read from its end, so the bytes of a character come last
    byte first. *)
Fixpoint strip_white_space (backwards : bool) (s : string) : string :=
  match s with
  | EmptyString => EmptyString
  | String a s1 =>
      if is_white_space_1 a then strip_white_space backwards s1
      else
        match s1 with
        | EmptyString => s
        | String b s2 =>
            if (if backwards then is_white_space_2 b a else is_white_space_2 a b)
            then strip_white_space backwards s2
            else
              match s2 with
              | EmptyString => s
              | String c s3 =>
                  if (if backwards then is_white_space_3 c b a
                      else is_white_space_3 a b c)
                  then strip_white_space backwards s3
                  else s
              end
        end
  end.

Definition reverse (s : string) : string :=
  string_of_list_ascii (rev (list_ascii_of_string s)).

Definition trimStart (s : string) : string := strip_white_space false s.

Definition trimEnd (s : string) : string :=
  reverse (strip_white_space true (reverse s)).

Definition trim (s : string) : string := trimEnd (trimStart s).

Definition lower_char (c : ascii) : ascii :=
  let n := nat_of_ascii c in
  if ((65 <=? n) && (n <=? 90))%nat then ascii_of_nat (n + 32) else c.

(** [String.prototype.toLowerCase] on the characters whose lower case
    holds an ASCII letter: [A-Z], U+212A KELVIN SIGN ([E2 84 AA], to [k])
    and U+0130 ([C4 B0], to [i] followed by U+0307, [CC 87]).  The bytes of
    every other character are kept: where its lower case differs, that is
    outside ASCII as well, so the comparison of the result with an ASCII
    string comes out as in JavaScript. *)
Fixpoint toLowerCase (s : string) : string :=
  match s with
  | EmptyString => EmptyString
  | String a s1 =>
      let otherwise := String (lower_char a) (toLowerCase s1) in
      match s1 with
      | EmptyString => otherwise
      | String b s2 =>
          if ((nat_of_ascii a =? 196) && (nat_of_ascii b =? 176))%nat
          then String "i" (String (ascii_of_nat 204) (String (ascii_of_nat 135)
                                                         (toLowerCase s2)))
          else
            match s2 with
            | EmptyString => otherwise
            | String c s3 =>
                if ((nat_of_ascii a =? 226) && (nat_of_ascii b =? 132)
                    && (nat_of_ascii c =? 170))%nat
                then String "k" (toLowerCase s3)
                else otherwise
            end
      end
  end.

(** Template-literal conversion of an integer. *)
Definition Number_toString (z : Z) : string :=
  NilZero.string_of_int (Z.to_int z).

(** Property lookup: the last assignment of the key, if any. *)
Fixpoint obj_lookup (k : string) (o : JsObj) : option JsValue :=
  match o with
  | [] => None
  | (k', v) :: o' =>
      match obj_lookup k o' with
      | Some v' => Some v'
      | None => if String.eqb k' k then Some v else None
      end
  end.

(** [o.k], [undefined] when the property is absent. *)
Definition obj_get (k : string) (o : JsObj) : JsValue :=
  match obj_lookup k o with Some v => v | None => JsUndefined end.

(** [const { k1, ..., kn, ...rest } = o]: the properties of [rest]. *)
Definition obj_rest (keys : list string) (o : JsObj) : JsObj :=
  filter (fun kv => negb (existsb (String.eqb (fst kv)) keys)) o.

Definition truthy (v : JsValue) : bool :=
  match v with
  | JsUndefined | JsNull => false
  | JsBool b => b
  | JsNumber z => truthy_number z
  | JsString s => truthy_string s
  | JsArray _ | JsObject _ => true
  end.

Definition is_undefined (v : JsValue) : bool :=
  match v with JsUndefined => true | _ => false end.

(* ------------------------------------------------------------------ *)
(** ** Records of the credential store and of the provider SDK *)

(** A document of the [integrations] collection (persisted shape:
    [{user_id, name, access_token, refresh_token?, expires_at?,
      created_at, updated_at}]). *)
Module Integration.
Record t : Type := mk
  { _id : Id;
    user_id : Id;
    name : string;
    access_token : option string;
    refresh_token : option string;
    expires_at : option Date;
    created_at : Date;
    updated_at : Date }.
End Integration.

(** The [Credentials] object of the SDK: the argument of
    [client.setCredentials] and the payload of a ["tokens"] event. *)
Module Credentials.
Record t : Type := mk
  { access_token : option string;
    refresh_token : option string;
    expiry_date : option Z }.
End Credentials.

(** The [updates] object built by the ["tokens"] listener, and more
    generally the [$set] document of an [updateOne]: a key is present when
    its field is [Some]. *)
Module Updates.
Record t : Type := mk
  { access_token : option string;
    refresh_token : option string;
    expires_at : option Date;
    updated_at : option Date }.

Definition empty : t := mk None None None None.

Definition count {A} (o : option A) : nat :=
  match o with Some _ => 1%nat | None => 0%nat end.

(** [Object.keys(updates).length] *)
Definition keys_length (u : t) : nat :=
  (count (access_token u) + count (refresh_token u)
   + count (expires_at u) + count (updated_at u))%nat.

Definition or_else {A} (o : option A) (d : A) : A :=
  match o with Some x => x | None => d end.

(** [Object.assign(doc, updates)], which is also what [$set] does to the
    stored document. *)
Definition assign (d : Integration.t) (u : t) : Integration.t :=
  {| Integration._id := Integration._id d;
     Integration.user_id := Integration.user_id d;
     Integration.name := Integration.name d;
     Integration.access_token :=
       match access_token u with
       | Some s => Some s | None => Integration.access_token d end;
     Integration.refresh_token :=
       match refresh_token u with
       | Some s => Some s | None => Integration.refresh_token d end;
     Integration.expires_at :=
       match expires_at u with
       | Some e => Some e | None => Integration.expires_at d end;
     Integration.created_at := Integration.created_at d;
     Integration.updated_at := or_else (updated_at u) (Integration.updated_at d) |}.
End Updates.

(** [calendar_v3.Schema$Event], restricted to the fields the code reads. *)
Module Event.
Record t : Type := mk
  { id : option string;
    summary : option string;
    status : option string;
    start_dateTime : option string;    (* event.start?.dateTime *)
    end_dateTime : option string }.    (* event.end?.dateTime *)
End Event.

Record ListParams : Type := mkListParams
  { list_calendarId : string;
    timeMin : string;
    timeMax : string;
    singleEvents : bool;
    orderBy : string }.

Record InsertParams : Type := mkInsertParams
  { insert_calendarId : string;
    requestBody : JsObj;
    conferenceDataVersion : option Z }.

(* ------------------------------------------------------------------ *)
(** ** The world an asynchronous function runs in *)

(** Every access to the credential store and to the provider. *)
Inductive Access : Type :=
| StoreFindOne (user_id : Id) (name : string)
| StoreUpdateOne (id : Id) (set : Updates.t)
| ProviderGetAccessToken (credentials : Credentials.t)
| ProviderEventsList (params : ListParams)
| ProviderEventsInsert (params : InsertParams).

Definition is_store_write (a : Access) : bool :=
  match a with StoreUpdateOne _ _ => true | _ => false end.

Definition is_store_access (a : Access) : bool :=
  match a with StoreFindOne _ _ | StoreUpdateOne _ _ => true | _ => false end.

Definition is_provider_call (a : Access) : bool :=
  match a with
  | ProviderGetAccessToken _ | ProviderEventsList _ | ProviderEventsInsert _ => true
  | _ => false
  end.

(** A reference to a document held in memory (a mongoose document object). *)
Definition DocRef := nat.

(** A ["tokens"] listener suspended at its [await]: the write it has issued
    to the store and the in-memory document it assigns to when the store
    has answered.  Nothing awaits the listener, so it resumes in a later
    turn of the event loop, after the function that caused the event has
    gone on. *)
Record PendingWrite : Type := mkPendingWrite
  { pw_id : Id;               (* the filter [{ _id }] of the [updateOne] *)
    pw_set : Updates.t;       (* its [$set] *)
    pw_doc : DocRef }.        (* the [integration] of the closure *)

Record World : Type := mkWorld
  { db : list Integration.t;        (* the integrations collection *)
    docs : list Integration.t;      (* documents in memory, by reference *)
    trace : list Access;            (* accesses so far, oldest first *)
    ticks : nat;                    (* clock readings taken so far *)
    draws : nat;                    (* random numbers drawn so far *)
    pending : list PendingWrite;    (* suspended listeners, oldest first *)
    unhandled : list JsError }.     (* rejections of promises nobody awaits *)

Definition with_db (f : list Integration.t -> list Integration.t) (w : World) : World :=
  {| db := f (db w); docs := docs w; trace := trace w; ticks := ticks w;
     draws := draws w; pending := pending w; unhandled := unhandled w |}.

Definition with_docs (f : list Integration.t -> list Integration.t) (w : World) : World :=
  {| db := db w; docs := f (docs w); trace := trace w; ticks := ticks w;
     draws := draws w; pending := pending w; unhandled := unhandled w |}.

Definition with_trace (f : list Access -> list Access) (w : World) : World :=
  {| db := db w; docs := docs w; trace := f (trace w); ticks := ticks w;
     draws := draws w; pending := pending w; unhandled := unhandled w |}.

Definition with_ticks (f : nat -> nat) (w : World) : World :=
  {| db := db w; docs := docs w; trace := trace w; ticks := f (ticks w);
     draws := draws w; pending := pending w; unhandled := unhandled w |}.

Definition with_draws (f : nat -> nat) (w : World) : World :=
  {| db := db w; docs := docs w; trace := trace w; ticks := ticks w;
     draws := f (draws w); pending := pending w; unhandled := unhandled w |}.

Definition with_pending (f : list PendingWrite -> list PendingWrite) (w : World)
  : World :=
  {| db := db w; docs := docs w; trace := trace w; ticks := ticks w;
     draws := draws w; pending := f (pending w); unhandled := unhandled w |}.

Definition with_unhandled (f : list JsError -> list JsError) (w : World) : World :=
  {| db := db w; docs := docs w; trace := trace w; ticks := ticks w;
     draws := draws w; pending := pending w; unhandled := f (unhandled w) |}.

Definition Async (A : Type) : Type := World -> Outcome A * World.

Definition ret {A} (a : A) : Async A := fun w => (Returned a, w).

Definition throw {A} (e : JsError) : Async A := fun w => (Thrown e, w).

Definition bind {A B} (c : Async A) (k : A -> Async B) : Async B :=
  fun w =>
    match c w with
    | (Returned a, w') => k a w'
    | (Thrown e, w') => (Thrown e, w')
    end.

(** [try { c } catch (err) { h err }] *)
Definition try_catch {A} (c : Async A) (h : JsError -> Async A) : Async A :=
  fun w =>
    match c w with
    | (Returned a, w') => (Returned a, w')
    | (Thrown e, w') => h e w'
    end.

(** A synchronous call inside an asynchronous function. *)
Definition lift {A} (o : Outcome A) : Async A := fun w => (o, w).

Declare Scope async_scope.
Delimit Scope async_scope with async.
Notation "x <- c ;; k" := (bind c (fun x => k))
  (at level 100, c at next level, right associativity) : async_scope.
Notation "c ;;; k" := (bind c (fun _ => k))
  (at level 100, right associativity) : async_scope.
Local Open Scope async_scope.

Definition log (a : Access) : Async unit :=
  fun w => (Returned tt, with_trace (fun t => t ++ [a]) w).

(* ------------------------------------------------------------------ *)
(** ** The environment: clock, [Date] formatting, and the provider *)

(** What [client.getAccessToken()] of the provider SDK does: it resolves,
    after emitting at most one ["tokens"] event and leaving new credentials
    in the client, or it rejects. *)
Inductive RefreshResult : Type :=
| Resolved (emitted : option Credentials.t) (credentials' : Credentials.t)
| Rejected (err : JsError).

(** The client object of the SDK: its credentials and its ["tokens"]
    listeners.  Every listener registered by this code is the closure of
    [refreshAndSaveTokens] over one in-memory integration document, so a
    listener is represented by that document's reference. *)
Record OAuth2Client : Type := mkClient
  { credentials : Credentials.t;
    tokens_listeners : list DocRef }.

Section Program.

#[local] Set Default Proof Using "Type".

(** [clock n] is the [n]-th reading of the system clock in milliseconds
    ([Date.now()], [new Date()]). *)
Variable clock : nat -> Z.
(** [Date.prototype.toISOString] on a valid date. *)
Variable toISOString : Z -> string.
(** The token endpoint behind [client.getAccessToken()]. *)
Variable provider_refresh : Credentials.t -> RefreshResult.

Definition Date_now : Async Z :=
  fun w => (Returned (clock (ticks w)), with_ticks S w).

(** [new Date()] *)
Definition new_Date : Async Date := Date_now.

(** [d.toISOString()], which throws a [RangeError] on an invalid date. *)
Definition Date_toISOString (d : Z) : Outcome string :=
  if Date_valid d then Returned (toISOString d)
  else Thrown (RangeError "Invalid time value").

(** *** The credential store ([IntegrationModel]) *)

Definition Id_eqb (a b : Id) : bool :=
  String.eqb (Id_toString a) (Id_toString b).

Definition matches (uid : Id) (nm : string) (d : Integration.t) : bool :=
  Id_eqb (Integration.user_id d) uid && String.eqb (Integration.name d) nm.

(** [IntegrationModel.findOne({ user_id, name })]: the first matching
    document, loaded into memory, or [null]. *)
Definition findOne (uid : Id) (nm : string) : Async (option DocRef) :=
  log (StoreFindOne uid nm) ;;;
  fun w =>
    match find (matches uid nm) (db w) with
    | Some d =>
        (Returned (Some (length (docs w))), with_docs (fun m => m ++ [d]) w)
    | None => (Returned None, w)
    end.

(** [$set] applied to the first document whose [_id] is [id]. *)
Fixpoint set_first (id : Id) (u : Updates.t) (l : list Integration.t)
  : list Integration.t :=
  match l with
  | [] => []
  | d :: l' =>
      if Id_eqb (Integration._id d) id then Updates.assign d u :: l'
      else d :: set_first id u l'
  end.

(** What the store does with an [updateOne] it accepts. *)
Definition store_apply (id : Id) (u : Updates.t) : Async unit :=
  fun w => (Returned tt, with_db (set_first id u) w).

(** [await IntegrationModel.updateOne({ _id: id }, { $set: u })]: the write
    is issued and the caller goes on when the store has applied it.  (The
    store is taken to answer the calls the code awaits; the write of the
    ["tokens"] listener, which nothing awaits, may also be rejected, see
    [settle].) *)
Definition updateOne (id : Id) (u : Updates.t) : Async unit :=
  log (StoreUpdateOne id u) ;;;
  store_apply id u.

(** *** Documents in memory *)

Definition deref (r : DocRef) : Async Integration.t :=
  fun w =>
    match nth_error (docs w) r with
    | Some d => (Returned d, w)
    | None => (Thrown (Error "Cannot read properties of undefined"), w)
    end.

Fixpoint list_update {A} (l : list A) (n : nat) (f : A -> A) : list A :=
  match l, n with
  | [], _ => []
  | x :: l', O => f x :: l'
  | x :: l', S n' => x :: list_update l' n' f
  end.

(** [Object.assign(integration, updates)] *)
Definition Object_assign (r : DocRef) (u : Updates.t) : Async unit :=
  fun w =>
    (Returned tt,
     with_docs (fun m => list_update m r (fun d => Updates.assign d u)) w).

(** *** lib/googleapis.ts *)

(** Preemptive refresh window to avoid near-expiry race conditions *)
Definition TOKEN_SKEW_MS : Z := 5 * 60 * 1000.

(** The ["tokens"] listener installed by
    [refreshAndSaveTokens(client, integration)], first part: the [updates]
    object it builds from the event's [tokens] and the in-memory document. *)
Definition listener_updates (doc : Integration.t) (tokens : Credentials.t)
  : Outcome Updates.t :=
  let updates := Updates.empty in
  let updates :=
    if truthy_opt_string (Credentials.access_token tokens)
       && negb (opt_string_eqb (Credentials.access_token tokens)
                               (Integration.access_token doc))
    then Updates.mk (Credentials.access_token tokens) (Updates.refresh_token updates)
                    (Updates.expires_at updates) (Updates.updated_at updates)
    else updates in
  let updates :=
    if truthy_opt_string (Credentials.refresh_token tokens)
       && negb (opt_string_eqb (Credentials.refresh_token tokens)
                               (Integration.refresh_token doc))
    then Updates.mk (Updates.access_token updates) (Credentials.refresh_token tokens)
                    (Updates.expires_at updates) (Updates.updated_at updates)
    else updates in
  match Credentials.expiry_date tokens with
  | Some expiry_date =>
      if truthy_number expiry_date then
        let asDate := expiry_date in
        match Date_toISOString asDate with
        | Returned iso =>
            if negb (opt_string_eqb (Some iso)
                       (option_map toISOString (Integration.expires_at doc)))
            then Returned (Updates.mk (Updates.access_token updates)
                                      (Updates.refresh_token updates)
                                      (Some asDate) (Updates.updated_at updates))
            else Returned updates
        | Thrown e => Thrown e
        end
      else Returned updates
  | None => Returned updates
  end.

(** The listener from the event up to its [await]: it stamps [updates]
    and issues the write, and is suspended there; [None] when it returns
    without writing. *)
Definition tokens_listener_issue (integration : DocRef) (tokens : Credentials.t)
  : Async (option PendingWrite) :=
  doc <- deref integration ;;
  updates <- lift (listener_updates doc tokens) ;;
  if (0 <? Updates.keys_length updates)%nat then
    now <- new_Date ;;
    let updates := Updates.mk (Updates.access_token updates)
                              (Updates.refresh_token updates)
                              (Updates.expires_at updates) (Some now) in
    log (StoreUpdateOne (Integration._id doc) updates) ;;;
    ret (Some {| pw_id := Integration._id doc; pw_set := updates;
                 pw_doc := integration |})
  else ret None.

(** The listener after its [await], when the store has answered: applied,
    and the in-memory copy is updated; or rejected, and the listener
    throws. *)
Definition tokens_listener_resume (p : PendingWrite) (answer : Outcome unit)
  : Async unit :=
  match answer with
  | Returned _ =>
      store_apply (pw_id p) (pw_set p) ;;;
      (* Keep in-memory copy updated during this request lifecycle *)
      Object_assign (pw_doc p) (pw_set p)
  | Thrown e => throw e
  end.

(** The listener run from the event to its end, the store applying the
    write. *)
Definition tokens_listener (integration : DocRef) (tokens : Credentials.t)
  : Async unit :=
  issued <- tokens_listener_issue integration tokens ;;
  match issued with
  | Some p => tokens_listener_resume p (Returned tt)
  | None => ret tt
  end.

(** [client.on("tokens", ...)] *)
Definition refreshAndSaveTokens (client : OAuth2Client) (integration : DocRef)
  : Async OAuth2Client :=
  ret {| credentials := credentials client;
         tokens_listeners := tokens_listeners client ++ [integration] |}.

(** The call of one listener by the emitter.  The listener is an [async]
    function: it runs up to its [await] and hands back a promise nobody
    awaits.  A listener suspended on its write joins the pending ones; what
    it throws before is an unhandled rejection; the emitter carries on in
    every case. *)
Definition call_listener (integration : DocRef) (tokens : Credentials.t)
  : Async unit :=
  fun w =>
    match tokens_listener_issue integration tokens w with
    | (Returned (Some p), w') => (Returned tt, with_pending (fun q => q ++ [p]) w')
    | (Returned None, w') => (Returned tt, w')
    | (Thrown e, w') => (Returned tt, with_unhandled (fun u => u ++ [e]) w')
    end.

(** [emitter.emit("tokens", tokens)]: each listener is called in turn. *)
Fixpoint emit_tokens (listeners : list DocRef) (tokens : Credentials.t)
  : Async unit :=
  match listeners with
  | [] => ret tt
  | l :: rest =>
      call_listener l tokens ;;;
      emit_tokens rest tokens
  end.

Fixpoint remove_nth {A} (n : nat) (l : list A) : list A :=
  match l, n with
  | [], _ => []
  | _ :: l', O => l'
  | x :: l', S n' => x :: remove_nth n' l'
  end.

(** A later turn of the event loop: the store answers the [n]-th pending
    write and its listener resumes.  When the store rejects the write, so
    does the listener, and the rejection is unhandled. *)
Definition settle (n : nat) (answer : Outcome unit) (w : World) : World :=
  match nth_error (pending w) n with
  | Some p =>
      match tokens_listener_resume p answer (with_pending (remove_nth n) w) with
      | (Returned _, w') => w'
      | (Thrown e, w') => with_unhandled (fun u => u ++ [e]) w'
      end
  | None => w
  end.

(** [client.getAccessToken()] *)
Definition getAccessToken (client : OAuth2Client) : Async OAuth2Client :=
  log (ProviderGetAccessToken (credentials client)) ;;;
  match provider_refresh (credentials client) with
  | Resolved emitted credentials' =>
      match emitted with
      | Some tokens => emit_tokens (tokens_listeners client) tokens
      | None => ret tt
      end ;;;
      ret {| credentials := credentials'; tokens_listeners := tokens_listeners client |}
  | Rejected err => throw err
  end.

Definition invalid_grant (err : JsError) : bool :=
  opt_string_eqb (response_data_error err) (Some "invalid_grant").

(** The time value [exp] computed from [integration.expires_at]. *)
Definition exp_of (expires_at : option Date) : Z :=
  match expires_at with Some d => d | None => 0 end.

(** The test [!exp || exp - now <= TOKEN_SKEW_MS]. *)
Definition needs_refresh (exp now : Z) : bool :=
  negb (truthy_number exp) || (exp - now <=? TOKEN_SKEW_MS).

Definition ensureFreshAccessToken (client : OAuth2Client) (integration : DocRef)
  : Async OAuth2Client :=
  now <- Date_now ;;
  doc <- deref integration ;;
  let exp := exp_of (Integration.expires_at doc) in
  if needs_refresh exp now then
    try_catch (getAccessToken client)
      (fun err =>
         (* If refresh fails due to revocation, keep DB consistent and rethrow *)
         (if invalid_grant err then
            doc <- deref integration ;;
            d <- new_Date ;;
            updateOne (Integration._id doc)
                      (Updates.mk None None None (Some d))
          else ret tt) ;;;
         throw err)
  else ret client.

(** [new OAuth2Client(...)] followed by [client.setCredentials({...})]. *)
Definition configured_client (doc : Integration.t) : OAuth2Client :=
  {| credentials :=
       Credentials.mk (Integration.access_token doc)
                      (Integration.refresh_token doc)
                      (Some (exp_of (Integration.expires_at doc)));
     tokens_listeners := [] |}.

Definition getGoogleService (req : AuthRequest) : Async OAuth2Client :=
  match user req with
  | None => throw (Error "User not authenticated")
  | Some u =>
      if negb (truthy_Id (_id u)) then throw (Error "User not authenticated")
      else
        let userId := _id u in
        integration <- findOne userId "google" ;;
        match integration with
        | None => throw (Error "No Google integration found")
        | Some integration =>
            doc <- deref integration ;;
            let client := configured_client doc in
            client <- refreshAndSaveTokens client integration ;;
            client <- ensureFreshAccessToken client integration ;;
            ret client
        end
  end.

Definition getGoogleServiceByUserId (userId requestingUserId : string)
  : Async OAuth2Client :=
  (* Authorization check: ensure the requesting user can only access their own data *)
  if negb (String.eqb userId requestingUserId) then
    throw (Error "Unauthorized: Cannot access another user's integrations")
  else
    integration <- findOne (IdString userId) "google" ;;
    match integration with
    | None => throw (Error "No Google integration found")
    | Some integration =>
        doc <- deref integration ;;
        let client := configured_client doc in
        client <- refreshAndSaveTokens client integration ;;
        client <- ensureFreshAccessToken client integration ;;
        ret client
    end.


(** [auth.generateAuthUrl(opts)] of the SDK, and the options object it is
    given. *)
Record GenerateAuthUrlOpts : Type := mkGenerateAuthUrlOpts
  { access_type : option string;
    scope : list string;
    state : option string;
    prompt : option string;
    include_granted_scopes : option bool }.

Variable generateAuthUrl : GenerateAuthUrlOpts -> string.

Definition getGoogleOAuthUrl (scopes : list string) (state : option string)
  : Async string :=
  let url := generateAuthUrl
               {| access_type := Some "offline";
                  scope := scopes;
                  state := state;
                  prompt := Some "consent";
                  include_granted_scopes := Some true |} in
  ret url.

(* ------------------------------------------------------------------ *)
(** ** services/google.ts *)

(** [new Date(s)] for a string: the time value, [None] for an invalid date. *)
Variable Date_parse : string -> option Z.
(** The calendar endpoints of the provider. *)
Variable calendar_events_list :
  OAuth2Client -> ListParams -> Outcome (option (list Event.t)).
Variable calendar_events_insert : OAuth2Client -> InsertParams -> Outcome JsObj.
(** [Math.floor(Math.random() * 10000)] at the [n]-th draw. *)
Variable random_10000 : nat -> Z.

Definition new_Date_of_string (s : string) : option Z :=
  match Date_parse s with
  | Some t => if Date_valid t then Some t else None
  | None => None
  end.

Definition events_list (client : OAuth2Client) (params : ListParams)
  : Async (option (list Event.t)) :=
  log (ProviderEventsList params) ;;; lift (calendar_events_list client params).

Definition events_insert (client : OAuth2Client) (params : InsertParams)
  : Async JsObj :=
  log (ProviderEventsInsert params) ;;; lift (calendar_events_insert client params).

Definition Math_random_10000 : Async Z :=
  fun w => (Returned (random_10000 (draws w)), with_draws S w).

(** [this.googleService()] *)
Definition googleService (req : AuthRequest) : Async OAuth2Client :=
  getGoogleService req.

(** One iteration of the loop of [checkConflict] over [events]; the dates
    [startTime] and [endTime] are valid when the loop is reached. *)
Definition checkConflict_step (startTime endTime : Z)
  (conflicts : list Event.t) (event : Event.t) : list Event.t :=
  if opt_string_eqb (Event.status event) (Some "cancelled") then conflicts
  else
    (* [None] is [null]; [Some None] is an invalid [Date] *)
    let eventStart :=
      match Event.start_dateTime event with
      | Some dt => if truthy_string dt then Some (new_Date_of_string dt) else None
      | None => None
      end in
    let eventEnd :=
      match Event.end_dateTime event with
      | Some dt => if truthy_string dt then Some (new_Date_of_string dt) else None
      | None => None
      end in
    match eventStart, eventEnd with
    | Some eventStart, Some eventEnd =>
        match eventStart, eventEnd with
        | Some s, Some e =>
            if (s <? endTime) && (startTime <? e) then
              conflicts ++
                [ {| Event.id := Event.id event;
                     Event.summary := Event.summary event;
                     Event.status := None;
                     Event.start_dateTime := Some (toISOString s);
                     Event.end_dateTime := Some (toISOString e) |} ]
            else conflicts
        | _, _ => conflicts     (* a comparison with NaN is false *)
        end
    | _, _ => conflicts
    end.

Definition checkConflict (req : AuthRequest) (start end_ : string)
  : Async (list Event.t) :=
  client <- googleService req ;;
  let startTime := new_Date_of_string start in
  let endTime := new_Date_of_string end_ in
  match startTime, endTime with
  | Some startTime, Some endTime =>
      res <- events_list client
               {| list_calendarId := "primary";
                  timeMin := toISOString startTime;
                  timeMax := toISOString endTime;
                  singleEvents := true;
                  orderBy := "startTime" |} ;;
      let events := match res with Some items => items | None => [] end in
      let conflicts := fold_left (checkConflict_step startTime endTime) events [] in
      ret conflicts
  | _, _ => throw (RangeError "Invalid time value")
  end.

Definition is_google_meet (location : JsValue) : bool :=
  match location with
  | JsString location => String.eqb (toLowerCase (trim location)) "google meet"
  | _ => false
  end.

Definition destructured : list string :=
  ["start_time"; "end_time"; "title"; "description"; "participants";
   "location"; "reminders"].

(** The object literal [requestBody] is first bound to. *)
Definition initial_requestBody (eventData : JsObj) : JsObj :=
  let start_time := obj_get "start_time" eventData in
  let end_time := obj_get "end_time" eventData in
  let title := obj_get "title" eventData in
  let description := obj_get "description" eventData in
  let participants := obj_get "participants" eventData in
  let location := obj_get "location" eventData in
  let reminders := obj_get "reminders" eventData in
  let rest := obj_rest destructured eventData in
  [ ("summary", title);
    ("description", description);
    ("start", if truthy start_time
              then JsObject [("dateTime", start_time)] else JsUndefined);
    ("end", if truthy end_time
            then JsObject [("dateTime", end_time)] else JsUndefined);
    ("attendees", match participants with
                  | JsArray emails =>
                      JsArray (map (fun email => JsObject [("email", email)]) emails)
                  | _ => JsUndefined
                  end);
    (* Only set a physical location if it's not the special "google meet" marker *)
    ("location", match location with
                 | JsString _ => if negb (is_google_meet location)
                                 then location else JsUndefined
                 | _ => JsUndefined
                 end);
    ("reminders", reminders) ] ++ rest.

(** The [conferenceData] added for the "google meet" marker; [now] is
    [Date.now()] and [rnd] is [Math.floor(Math.random() * 10000)]. *)
Definition meet_conferenceData (now rnd : Z) : JsValue :=
  JsObject
    [ ("createRequest",
       JsObject
         [ ("requestId",
            JsString ("meet-" ++ Number_toString now ++ "-" ++ Number_toString rnd)%string);
           ("conferenceSolutionKey", JsObject [("type", JsString "hangoutsMeet")]) ]) ].

(** The argument of [calendar.events.insert]. *)
Definition insert_request (requestBody : JsObj) : InsertParams :=
  {| insert_calendarId := "primary";
     requestBody := requestBody;
     conferenceDataVersion :=
       if negb (is_undefined (obj_get "conferenceData" requestBody))
       then Some 1 else None |}.

Definition createEvent (req : AuthRequest) (eventData : option JsObj)
  : Async JsObj :=
  client <- googleService req ;;
  let eventData := match eventData with Some o => o | None => [] end in
  let location := obj_get "location" eventData in
  let requestBody := initial_requestBody eventData in
  requestBody <-
    (if is_google_meet location then
       now <- Date_now ;;
       rnd <- Math_random_10000 ;;
       ret (requestBody ++ [ ("conferenceData", meet_conferenceData now rnd) ])
     else ret requestBody) ;;
  res <- events_insert client (insert_request requestBody) ;;
  ret res.

(* ------------------------------------------------------------------ *)
(** ** controllers/platforms/google.ts *)

Inductive ResponseJson : Type :=
| ConflictJson (success conflict : bool) (conflicting_events : list Event.t)
| MessageJson (success : bool) (message : string)
| InvalidPayloadJson (success : bool) (message : string).

Record Response : Type := mkResponse
  { status : Z;
    json : ResponseJson }.

(** [z.string().min(1)] *)
Definition nonempty_string (v : JsValue) : option string :=
  match v with
  | JsString s => if truthy_string s then Some s else None
  | _ => None
  end.

Definition checkConflictController (req : AuthRequest) : Async Response :=
  match nonempty_string (obj_get "start_time" (body req)),
        nonempty_string (obj_get "end_time" (body req)) with
  | Some start_time, Some end_time =>
      try_catch
        (events <- checkConflict req start_time end_time ;;
         ret {| status := 200;
                json := ConflictJson true (0 <? length events)%nat events |})
        (fun error =>
           let message :=
             if String.eqb (message error) "Google client not initialized"
             then "Google is not connected for this user"
             else "Unable to check for conflicts" in
           ret {| status := 400; json := MessageJson false message |})
  | _, _ =>
      ret {| status := 400;
             json := InvalidPayloadJson false "Invalid request payload" |}
  end.

(* ------------------------------------------------------------------ *)
(** ** lib/utils.ts, the admin gate *)

Definition authorizeAdminAccess (req : AuthRequest) : Outcome bool :=
  match user req with
  | None => Thrown (Error "User not authenticated")
  | Some u =>
      if negb (truthy_Id (_id u)) then Thrown (Error "User not authenticated")
      else
        (* Add your admin role check logic here *)
        Returned true
  end.

(* ------------------------------------------------------------------ *)
(** ** services/google.ts, the other operations *)

(** The calendar endpoints used by the operations below, recorded beside
    the world in the order they are called. *)
Inductive CalendarCall : Type :=
| EventsPatch (eventId : string) (requestBody : JsObj)
| EventsDelete (eventId : string)
| EventsGet (eventId : string)
| EventsListWith (params : JsObj).

Record Session : Type := mkSession
  { world : World;
    calendar_calls : list CalendarCall }.

Definition Request (A : Type) : Type := Session -> Outcome A * Session.

Definition rret {A} (a : A) : Request A := fun s => (Returned a, s).

Definition rthrow {A} (e : JsError) : Request A := fun s => (Thrown e, s).

Definition rbind {A B} (c : Request A) (k : A -> Request B) : Request B :=
  fun s =>
    match c s with
    | (Returned a, s') => k a s'
    | (Thrown e, s') => (Thrown e, s')
    end.

Definition rtry {A} (c : Request A) (h : JsError -> Request A) : Request A :=
  fun s =>
    match c s with
    | (Returned a, s') => (Returned a, s')
    | (Thrown e, s') => h e s'
    end.

(** An asynchronous function of the first part, run on the session's world. *)
Definition in_world {A} (c : Async A) : Request A :=
  fun s =>
    match c (world s) with
    | (o, w') => (o, {| world := w'; calendar_calls := calendar_calls s |})
    end.

(** A call of a calendar endpoint with the given result. *)
Definition calendar_call {A} (c : CalendarCall) (result : Outcome A) : Request A :=
  fun s => (result, {| world := world s; calendar_calls := calendar_calls s ++ [c] |}).

Declare Scope request_scope.
Delimit Scope request_scope with request.
Notation "x <- c ;; k" := (rbind c (fun x => k))
  (at level 100, c at next level, right associativity) : request_scope.
Notation "c ;;; k" := (rbind c (fun _ => k))
  (at level 100, right associativity) : request_scope.

Variable calendar_events_patch : OAuth2Client -> string -> JsObj -> Outcome JsObj.
Variable calendar_events_delete : OAuth2Client -> string -> Outcome unit.
Variable calendar_events_get : OAuth2Client -> string -> Outcome JsObj.
Variable calendar_events_list_with :
  OAuth2Client -> JsObj -> Outcome (option (list JsObj)).

Definition TypeError (msg : string) : JsError :=
  {| message := msg; response_data_error := None |}.

Definition editEvent (req : AuthRequest) (eventId : string) (updates : JsObj)
  : Request JsObj :=
  (client <- in_world (googleService req) ;;
   res <- calendar_call (EventsPatch eventId updates)
            (calendar_events_patch client eventId updates) ;;
   rret res)%request.

(** Returns [{ success: true }]. *)
Definition deleteEvent (req : AuthRequest) (eventId : string) : Request bool :=
  (client <- in_world (googleService req) ;;
   calendar_call (EventsDelete eventId) (calendar_events_delete client eventId) ;;;
   rret true)%request.

Definition fetchEvent (req : AuthRequest) (eventId : string) : Request JsObj :=
  (client <- in_world (googleService req) ;;
   res <- calendar_call (EventsGet eventId) (calendar_events_get client eventId) ;;
   rret res)%request.

Definition fetchEvents (req : AuthRequest) (params : JsObj)
  : Request (list JsObj) :=
  (client <- in_world (googleService req) ;;
   let query := [("calendarId", JsString "primary")] ++ params in
   res <- calendar_call (EventsListWith query)
            (calendar_events_list_with client query) ;;
   rret (match res with Some items => items | None => [] end))%request.

(** A [string | Date] argument; a [Date] is its time value, [None] when
    invalid. *)
Inductive DateInput : Type :=
| AsString (s : string)
| AsDate (d : option Z).

(** [typeof x === "string" ? x : x.toISOString()] *)
Definition dateTime_of (x : DateInput) : Outcome string :=
  match x with
  | AsString s => Returned s
  | AsDate (Some t) => Returned (toISOString t)
  | AsDate None => Thrown (RangeError "Invalid time value")
  end.

Definition rescheduleEvent (req : AuthRequest) (eventId : string)
    (newStart newEnd : DateInput) : Request JsObj :=
  (client <- in_world (googleService req) ;;
   start <- (fun s => (dateTime_of newStart, s)) ;;
   end_ <- (fun s => (dateTime_of newEnd, s)) ;;
   let requestBody :=
     [ ("start", JsObject [("dateTime", JsString start)]);
       ("end", JsObject [("dateTime", JsString end_)]) ] in
   res <- calendar_call (EventsPatch eventId requestBody)
            (calendar_events_patch client eventId requestBody) ;;
   rret res)%request.

(* ------------------------------------------------------------------ *)
(** ** controllers/platforms/google.ts, the other controllers *)

(** [z.email()]: the validator's notion of an e-mail address. *)
Variable is_email : string -> bool.
(** [z.coerce.date()]: the time value of [new Date(input)], [None] when the
    date is invalid. *)
Variable coerce_date : JsValue -> option Z.
(** [getDayBoundsInUTC(date, timeZone)] of [lib/utils.ts], which goes
    through [Intl] and the locale formatting of dates: [(timeMin, timeMax)],
    or what it throws. *)
Variable getDayBoundsInUTC : Z -> string -> Outcome (string * string).

(** [z.string().optional()]: [Some None] for an absent key, [None] for a
    value of another type. *)
Definition optional_string (v : JsValue) : option (option string) :=
  match v with
  | JsUndefined => Some None
  | JsString s => Some (Some s)
  | _ => None
  end.

Definition optional_boolean (v : JsValue) : option (option bool) :=
  match v with
  | JsUndefined => Some None
  | JsBool b => Some (Some b)
  | _ => None
  end.

Fixpoint emails_of (items : list JsValue) : option (list string) :=
  match items with
  | [] => Some []
  | JsString s :: rest =>
      if is_email s then
        match emails_of rest with Some l => Some (s :: l) | None => None end
      else None
  | _ :: _ => None
  end.

(** [z.array(z.email()).optional()] *)
Definition optional_emails (v : JsValue) : option (option (list string)) :=
  match v with
  | JsUndefined => Some None
  | JsArray items =>
      match emails_of items with Some l => Some (Some l) | None => None end
  | _ => None
  end.

Definition js_of_opt_string (o : option string) : JsValue :=
  match o with Some s => JsString s | None => JsUndefined end.

(** [a || b] *)
Definition js_or (a b : JsValue) : JsValue := if truthy a then a else b.

(** [v?.k]: also what [v.k] gives on a value that is not null or undefined,
    for the keys read here. *)
Definition chain_get (v : JsValue) (k : string) : JsValue :=
  match v with JsObject o => obj_get k o | _ => JsUndefined end.

(** [v?.[0]] *)
Definition chain_first (v : JsValue) : JsValue :=
  match v with
  | JsArray (x :: _) => x
  | JsString (String c _) => JsString (String c EmptyString)
  | JsObject o => obj_get "0" o
  | _ => JsUndefined
  end.

Record FormattedEvent : Type := mkFormattedEvent
  { fe_event_id : JsValue;
    fe_title : JsValue;
    fe_description : JsValue;
    fe_start_time : JsValue;
    fe_end_time : JsValue;
    fe_attendees : list JsValue }.

Inductive ApiJson : Type :=
| InvalidJson (success : bool) (message : string)
| FailureJson (success : bool) (message : string)
| CreatedJson (success : bool) (event_id meet_link start_time end_time : JsValue)
| EditedJson (success : bool) (event_id : JsValue) (updated_fields : list string)
    (meet_link : JsValue)
| EditFailureJson (success : bool) (message : string)        (* event: null *)
| DeletedJson (success : bool) (message : string)
| EventsJson (success : bool) (events : list FormattedEvent)
| EventsFailureJson (success : bool) (message : string)      (* events: [] *)
| RescheduledJson (success : bool) (event_id : JsValue).

Record ApiResponse : Type := mkApiResponse
  { api_status : Z;
    api_json : ApiJson }.

Definition invalid_payload : ApiResponse :=
  {| api_status := 400; api_json := InvalidJson false "Invalid request payload" |}.

(** The message every controller picks in its [catch]. *)
Definition failure_message (error : JsError) (otherwise : string) : string :=
  if String.eqb (message error) "Google client not initialized"
  then "Google is not connected for this user" else otherwise.

(** *** createEventController *)

Record CreateEventData : Type := mkCreateEventData
  { ce_start_time : string;
    ce_end_time : string;
    ce_title : option string;
    ce_description : option string;
    ce_participants : option (list string);
    ce_location : option string;
    ce_reminders : JsValue }.

(** [createEventSchema.safeParse(req.body)] *)
Definition parse_createEvent (b : JsObj) : option CreateEventData :=
  match nonempty_string (obj_get "start_time" b),
        nonempty_string (obj_get "end_time" b),
        optional_string (obj_get "title" b),
        optional_string (obj_get "description" b),
        optional_emails (obj_get "participants" b),
        optional_string (obj_get "location" b) with
  | Some st, Some et, Some ti, Some de, Some pa, Some lo =>
      Some (mkCreateEventData st et ti de pa lo (obj_get "reminders" b))
  | _, _, _, _, _, _ => None
  end.

(** The object literal handed to [googleService.createEvent]. *)
Definition createEvent_argument (p : CreateEventData) : JsObj :=
  [ ("start_time", JsString (ce_start_time p));
    ("end_time", JsString (ce_end_time p));
    ("title", js_of_opt_string (ce_title p));
    ("description", js_of_opt_string (ce_description p));
    ("participants", match ce_participants p with
                     | Some l => JsArray (map JsString l)
                     | None => JsUndefined
                     end);
    ("location", js_of_opt_string (ce_location p));
    ("reminders", ce_reminders p) ].

Definition createEventController (req : AuthRequest) : Async ApiResponse :=
  match parse_createEvent (body req) with
  | None => ret invalid_payload
  | Some p =>
      try_catch
        (event <- createEvent req (Some (createEvent_argument p)) ;;
         ret {| api_status := 200;
                api_json :=
                  CreatedJson true (obj_get "id" event) (obj_get "hangoutLink" event)
                    (chain_get (obj_get "start" event) "dateTime")
                    (chain_get (obj_get "end" event) "dateTime") |})
        (fun error =>
           ret {| api_status := 400;
                  api_json :=
                    FailureJson false (failure_message error "Unable to create event") |})
  end.

(** *** editEventController *)

Record Changes : Type := mkChanges
  { ch_title : option string;
    ch_description : option string;
    ch_add_participants : option (list string);
    ch_remove_participants : option (list string);
    ch_add_meet_link : option bool }.

(** [editEventSchema.safeParse(req.body)] *)
Definition parse_editEvent (b : JsObj) : option (string * Changes) :=
  match nonempty_string (obj_get "event_id" b), obj_get "changes" b with
  | Some event_id, JsObject c =>
      match optional_string (obj_get "title" c),
            optional_string (obj_get "description" c),
            optional_emails (obj_get "add_participants" c),
            optional_emails (obj_get "remove_participants" c),
            optional_boolean (obj_get "add_meet_link" c) with
      | Some ti, Some de, Some ad, Some rm, Some ml =>
          Some (event_id, mkChanges ti de ad rm ml)
      | _, _, _, _, _ => None
      end
  | _, _ => None
  end.

(** [typeof a === "string" ? a : a.email] *)
Definition attendee_email (a : JsValue) : Outcome JsValue :=
  match a with
  | JsString s => Returned (JsString s)
  | JsObject o => Returned (obj_get "email" o)
  | JsNull => Thrown (TypeError "Cannot read properties of null (reading 'email')")
  | JsUndefined =>
      Thrown (TypeError "Cannot read properties of undefined (reading 'email')")
  | _ => Returned JsUndefined
  end.

(** [items.map(f)] for an [f] that may throw. *)
Fixpoint map_outcome {A B} (f : A -> Outcome B) (l : list A) : Outcome (list B) :=
  match l with
  | [] => Returned []
  | x :: rest =>
      match f x with
      | Returned y =>
          match map_outcome f rest with
          | Returned ys => Returned (y :: ys)
          | Thrown e => Thrown e
          end
      | Thrown e => Thrown e
      end
  end.

(** The attendees of the fetched event, each represented by the value of
    its [email]. *)
Definition current_attendees (event : JsObj) : Outcome (list JsValue) :=
  match obj_get "attendees" event with
  | JsArray items => map_outcome attendee_email items
  | _ => Returned []
  end.

(** [remove_participants.includes(email)] *)
Definition includes (l : list string) (email : JsValue) : bool :=
  match email with
  | JsString s => existsb (String.eqb s) l
  | _ => false
  end.

Definition remove_attendees (remove : list string) (attendees : list JsValue)
  : list JsValue :=
  filter (fun email => truthy email && negb (includes remove email)) attendees.

(** [existingEmails.has(email)] for the set built from the truthy emails. *)
Definition has_email (existingEmails : list JsValue) (email : string) : bool :=
  existsb (fun v => match v with JsString s => String.eqb s email | _ => false end)
          existingEmails.

Definition add_attendees (add : list string) (attendees : list JsValue)
  : list JsValue :=
  let existingEmails := filter truthy attendees in
  fold_left
    (fun attendees email =>
       if negb (has_email existingEmails email)
       then attendees ++ [JsString email] else attendees)
    add attendees.

Definition edited_attendees (changes : Changes) (attendees : list JsValue)
  : list JsValue :=
  let attendees :=
    match ch_remove_participants changes with
    | Some remove => remove_attendees remove attendees
    | None => attendees
    end in
  match ch_add_participants changes with
  | Some add => add_attendees add attendees
  | None => attendees
  end.

Definition edit_conferenceData (event_id : string) (now : Z) : JsValue :=
  JsObject
    [ ("createRequest",
       JsObject
         [ ("requestId",
            JsString ("meet-" ++ event_id ++ "-" ++ Number_toString now)%string);
           ("conferenceSolutionKey", JsObject [("type", JsString "hangoutsMeet")]) ]) ].

Definition is_some {A} (o : option A) : bool :=
  match o with Some _ => true | None => false end.

Definition editEventController (req : AuthRequest) : Request ApiResponse :=
  match parse_editEvent (body req) with
  | None => rret invalid_payload
  | Some (event_id, changes) =>
      rtry
        (let payload : JsObj := [] in
         let updated_fields : list string := [] in
         let '(payload, updated_fields) :=
           if truthy_opt_string (ch_title changes)
           then (payload ++ [("summary", js_of_opt_string (ch_title changes))],
                 updated_fields ++ ["title"])
           else (payload, updated_fields) in
         let '(payload, updated_fields) :=
           if truthy_opt_string (ch_description changes)
           then (payload ++ [("description", js_of_opt_string (ch_description changes))],
                 updated_fields ++ ["description"])
           else (payload, updated_fields) in
         (pu <- (match ch_add_meet_link changes with
                 | Some true =>
                     now <- in_world Date_now ;;
                     rret (payload ++ [("conferenceData", edit_conferenceData event_id now)],
                           updated_fields ++ ["meeting_link"])
                 | _ => rret (payload, updated_fields)
                 end) ;;
          let '(payload, updated_fields) := pu in
          pu <- (if is_some (ch_add_participants changes)
                    || is_some (ch_remove_participants changes)
                 then
                   event <- fetchEvent req event_id ;;
                   attendees <- (fun s => (current_attendees event, s)) ;;
                   let attendees := edited_attendees changes attendees in
                   rret (payload ++
                         [("attendees",
                           JsArray (map (fun email => JsObject [("email", email)])
                                        attendees))],
                         updated_fields ++ ["participants"])
                 else rret (payload, updated_fields)) ;;
          let '(payload, updated_fields) := pu in
          updated <- editEvent req event_id payload ;;
          rret {| api_status := 200;
                  api_json :=
                    EditedJson true
                      (js_or (obj_get "id" updated) (JsString event_id))
                      updated_fields
                      (js_or (obj_get "hangoutLink" updated)
                             (chain_get
                                (chain_first
                                   (chain_get (obj_get "conferenceData" updated)
                                              "entryPoints"))
                                "uri")) |})%request)
        (fun error =>
           rret {| api_status := 400;
                   api_json :=
                     EditFailureJson false
                       (failure_message error "Failed to edit event") |})
  end.

(** *** deleteEventController *)

Definition deleteEventController (req : AuthRequest) : Request ApiResponse :=
  match nonempty_string (obj_get "event_id" (body req)) with
  | None => rret invalid_payload
  | Some event_id =>
      rtry
        (deleteEvent req event_id ;;;
         rret {| api_status := 200; api_json := DeletedJson true "Event deleted" |})%request
        (fun error =>
           rret {| api_status := 400;
                   api_json :=
                     FailureJson false
                       (failure_message error "Failed to delete event") |})
  end.

(** *** fetchEventsController *)

(** [a.email] *)
Definition email_of (a : JsValue) : Outcome JsValue :=
  match a with
  | JsObject o => Returned (obj_get "email" o)
  | JsNull => Thrown (TypeError "Cannot read properties of null (reading 'email')")
  | JsUndefined =>
      Thrown (TypeError "Cannot read properties of undefined (reading 'email')")
  | _ => Returned JsUndefined
  end.

(** [(event.attendees || []).map((a) => a.email)] *)
Definition attendee_emails (attendees : JsValue) : Outcome (list JsValue) :=
  match js_or attendees (JsArray []) with
  | JsArray items => map_outcome email_of items
  | _ => Thrown (TypeError "(event.attendees || []).map is not a function")
  end.

Definition format_event (event : JsObj) : Outcome FormattedEvent :=
  match attendee_emails (obj_get "attendees" event) with
  | Returned attendees =>
      Returned
        {| fe_event_id := obj_get "id" event;
           fe_title := js_or (obj_get "summary" event) (JsString EmptyString);
           fe_description := js_or (obj_get "description" event) (JsString EmptyString);
           fe_start_time :=
             js_or (chain_get (obj_get "start" event) "dateTime")
                   (js_or (chain_get (obj_get "start" event) "date")
                          (JsString EmptyString));
           fe_end_time :=
             js_or (chain_get (obj_get "end" event) "dateTime")
                   (js_or (chain_get (obj_get "end" event) "date")
                          (JsString EmptyString));
           fe_attendees := attendees |}
  | Thrown e => Thrown e
  end.

(** [fetchEventsSchema.safeParse(req.body)]: the start date and the
    optional end date. *)
Definition parse_fetchEvents (b : JsObj) : option (Z * option Z) :=
  match coerce_date (obj_get "start_date" b) with
  | Some start_date =>
      match obj_get "end_date" b with
      | JsUndefined => Some (start_date, None)
      | v => match coerce_date v with
             | Some end_date => Some (start_date, Some end_date)
             | None => None
             end
      end
  | None => None
  end.

Definition fetchEventsController (req : AuthRequest) : Request ApiResponse :=
  match parse_fetchEvents (body req) with
  | None => rret invalid_payload
  | Some (start_date, end_date) =>
      rtry
        (bounds <- (fun s => (getDayBoundsInUTC start_date "Africa/Lagos", s)) ;;
         let timeMin := fst bounds in
         bounds <- (fun s =>
                      (getDayBoundsInUTC
                         (match end_date with Some d => d | None => start_date end)
                         "Africa/Lagos", s)) ;;
         let timeMax := snd bounds in
         events <- fetchEvents req [("timeMin", JsString timeMin);
                                    ("timeMax", JsString timeMax)] ;;
         formattedEvents <- (fun s => (map_outcome format_event events, s)) ;;
         rret {| api_status := 200; api_json := EventsJson true formattedEvents |})%request
        (fun error =>
           rret {| api_status := 400;
                   api_json :=
                     EventsFailureJson false
                       (failure_message error "Failed to fetch events") |})
  end.

(** *** rescheduleEventController *)

Definition parse_rescheduleEvent (b : JsObj) : option (string * string * string) :=
  match nonempty_string (obj_get "event_id" b),
        nonempty_string (obj_get "new_start_time" b),
        nonempty_string (obj_get "new_end_time" b) with
  | Some event_id, Some s, Some e => Some (event_id, s, e)
  | _, _, _ => None
  end.

Definition rescheduleEventController (req : AuthRequest) : Request ApiResponse :=
  match parse_rescheduleEvent (body req) with
  | None => rret invalid_payload
  | Some (event_id, new_start_time, new_end_time) =>
      rtry
        (updated <- rescheduleEvent req event_id
                      (AsString new_start_time) (AsString new_end_time) ;;
         rret {| api_status := 200;
                 api_json :=
                   RescheduledJson true
                     (js_or (obj_get "id" updated) (JsString event_id)) |})%request
        (fun error =>
           rret {| api_status := 400;
                   api_json :=
                     FailureJson false
                       (failure_message error "Failed to reschedule event") |})
  end.

(* ------------------------------------------------------------------ *)
(** ** Vocabulary of the properties *)

(** The request of a principal. *)
Definition request_of (i : Id) (b : JsObj) : AuthRequest :=
  {| user := Some {| _id := i; email := EmptyString |}; body := b |}.

Definition is_token_call (a : Access) : bool :=
  match a with ProviderGetAccessToken _ => true | _ => false end.

(** How many times the token endpoint was called so far. *)
Definition refresh_attempts (w : World) : nat :=
  length (filter is_token_call (trace w)).

(** The world after the lookup of [getGoogleService] found [d]. *)
Definition loaded (uid : Id) (d : Integration.t) (w : World) : World :=
  with_docs (fun m => m ++ [d])
    (with_trace (fun t => t ++ [StoreFindOne uid "google"]) w).

(** The client as [getGoogleService] hands it to [ensureFreshAccessToken]. *)
Definition listening_client (d : Integration.t) (r : DocRef) : OAuth2Client :=
  {| credentials := credentials (configured_client d); tokens_listeners := [r] |}.


(** The [$set] document that only touches [updated_at]. *)
Definition touch (now : Date) : Updates.t := Updates.mk None None None (Some now).

(** The world after the listener wrote [u] for the document [doc] at [r]. *)
Definition written (r : DocRef) (doc : Integration.t) (u : Updates.t) (w : World)
  : World :=
  with_docs (fun m => list_update m r (fun d => Updates.assign d u))
    (with_db (set_first (Integration._id doc) u)
       (with_trace (fun t => t ++ [StoreUpdateOne (Integration._id doc) u])
          (with_ticks S w))).

(** The listener of the document [doc] at [r], suspended on the write of
    [u]. *)
Definition suspended (r : DocRef) (doc : Integration.t) (u : Updates.t)
  : PendingWrite :=
  {| pw_id := Integration._id doc; pw_set := u; pw_doc := r |}.

(** The world after the listener issued the write of [u] for the document
    [doc] at [r] and was suspended. *)
Definition issued (r : DocRef) (doc : Integration.t) (u : Updates.t) (w : World)
  : World :=
  with_pending (fun q => q ++ [suspended r doc u])
    (with_trace (fun t => t ++ [StoreUpdateOne (Integration._id doc) u])
       (with_ticks S w)).

Definition stamped (u : Updates.t) (now : Date) : Updates.t :=
  Updates.mk (Updates.access_token u) (Updates.refresh_token u)
             (Updates.expires_at u) (Some now).

(** The instant of a timed start or end: [None] when the event has no
    [dateTime] there (an all-day event) or the [dateTime] is no date. *)
Definition event_time (dateTime : option string) : option Z :=
  match dateTime with
  | Some dt => if truthy_string dt then new_Date_of_string dt else None
  | None => None
  end.

(** The event [e] is not cancelled, has a timed start and a timed end, and
    overlaps the interval from [startTime] to [endTime]. *)
Definition overlaps (startTime endTime : Z) (e : Event.t) : Prop :=
  Event.status e <> Some "cancelled"
  /\ exists s en,
      event_time (Event.start_dateTime e) = Some s
      /\ event_time (Event.end_dateTime e) = Some en
      /\ s < endTime /\ startTime < en.

Definition overlapsb (startTime endTime : Z) (e : Event.t) : bool :=
  negb (opt_string_eqb (Event.status e) (Some "cancelled"))
  && match event_time (Event.start_dateTime e),
           event_time (Event.end_dateTime e) with
     | Some s, Some en => (s <? endTime) && (startTime <? en)
     | _, _ => false
     end.

(** How [checkConflict] reports a conflicting event [e]: its id, its
    summary, and its start and end as ISO strings. *)
Definition reported (e c : Event.t) : Prop :=
  exists s en,
    event_time (Event.start_dateTime e) = Some s
    /\ event_time (Event.end_dateTime e) = Some en
    /\ c = {| Event.id := Event.id e;
              Event.summary := Event.summary e;
              Event.status := None;
              Event.start_dateTime := Some (toISOString s);
              Event.end_dateTime := Some (toISOString en) |}.

(** The query [checkConflict] sends to [events.list]. *)
Definition conflict_query (startTime endTime : Z) : ListParams :=
  {| list_calendarId := "primary";
     timeMin := toISOString startTime;
     timeMax := toISOString endTime;
     singleEvents := true;
     orderBy := "startTime" |}.

(** What [getGoogleService] never changes in a stored document. *)
Definition identity (d : Integration.t) : Id * Id * string * Date :=
  (Integration._id d, Integration.user_id d, Integration.name d,
   Integration.created_at d).

(** How many documents were written so far, and how many looked up. *)
Definition store_writes (w : World) : nat :=
  length (filter is_store_write (trace w)).

Definition is_lookup (a : Access) : bool :=
  match a with StoreFindOne _ _ => true | _ => false end.

Definition store_lookups (w : World) : nat :=
  length (filter is_lookup (trace w)).

(** Mongo's guarantee on [_id]. *)
Definition unique_ids (l : list Integration.t) : Prop :=
  NoDup (map (fun d => Id_toString (Integration._id d)) l).

(** The value the listener puts in [updates] for a token field: the
    event's token when it is non-empty and not the document's. *)
Definition changed (tok stored : option string) : option string :=
  if truthy_opt_string tok && negb (opt_string_eqb tok stored) then tok else None.

Definition changed_expiry (expiry_date : option Z) (stored : option Date)
  : option Date :=
  match expiry_date with
  | Some e =>
      if truthy_number e
         && negb (opt_string_eqb (Some (toISOString e)) (option_map toISOString stored))
      then Some e else None
  | None => None
  end.

(** The event carries an expiry that is no valid date. *)
Definition expiry_out_of_range (expiry_date : option Z) : bool :=
  match expiry_date with
  | Some e => truthy_number e && negb (Date_valid e)
  | None => false
  end.

(** The request body [createEvent] sends for the event data [data]. *)
Definition created_requestBody (data : JsObj) (now rnd : Z) : JsObj :=
  if is_google_meet (obj_get "location" data)
  then initial_requestBody data ++ [("conferenceData", meet_conferenceData now rnd)]
  else initial_requestBody data.

(** The world after [createEvent] sent [body] from the world [w1]. *)
Definition inserted (data body : JsObj) (w1 : World) : World :=
  with_trace (fun t => t ++ [ProviderEventsInsert (insert_request body)])
    (if is_google_meet (obj_get "location" data)
     then with_draws S (with_ticks S w1) else w1).

(** The request body [createEventController] has [createEvent] send for
    the validated payload [p]. *)
Definition controller_requestBody (p : CreateEventData) (now rnd : Z) : JsObj :=
  let meet := is_google_meet (js_of_opt_string (ce_location p)) in
  [ ("summary", js_of_opt_string (ce_title p));
    ("description", js_of_opt_string (ce_description p));
    ("start", JsObject [("dateTime", JsString (ce_start_time p))]);
    ("end", JsObject [("dateTime", JsString (ce_end_time p))]);
    ("attendees",
     match ce_participants p with
     | Some l => JsArray (map (fun s => JsObject [("email", JsString s)]) l)
     | None => JsUndefined
     end);
    ("location", if meet then JsUndefined else js_of_opt_string (ce_location p));
    ("reminders", ce_reminders p) ]
  ++ (if meet then [("conferenceData", meet_conferenceData now rnd)] else []).

Definition controller_insert (p : CreateEventData) (now rnd : Z) : InsertParams :=
  {| insert_calendarId := "primary";
     requestBody := controller_requestBody p now rnd;
     conferenceDataVersion :=
       if is_google_meet (js_of_opt_string (ce_location p)) then Some 1 else None |}.

(** The [updated_fields] an edit reports for the validated [changes]. *)
Definition expected_fields (c : Changes) : list string :=
  (if truthy_opt_string (ch_title c) then ["title"] else [])
  ++ (if truthy_opt_string (ch_description c) then ["description"] else [])
  ++ (match ch_add_meet_link c with Some true => ["meeting_link"] | _ => [] end)
  ++ (if is_some (ch_add_participants c) || is_some (ch_remove_participants c)
      then ["participants"] else []).

(** The session after a service call made with the client obtained in
    the world [w1]. *)
Definition called (c : CalendarCall) (w1 : World) (s : Session) : Session :=
  {| world := w1; calendar_calls := calendar_calls s ++ [c] |}.

(** A formatted field that a client can always read as a string or a
    value: never [undefined], [null], [false], [0]. *)
Definition present (v : JsValue) : Prop :=
  truthy v = true \/ v = JsString EmptyString.

(** The query [fetchEventsController] sends for the bounds of the first
    and of the last day. *)
Definition window_query (first_day last_day : string * string) : JsObj :=
  [ ("calendarId", JsString "primary");
    ("timeMin", JsString (fst first_day));
    ("timeMax", JsString (snd last_day)) ].

Definition reschedule_body (new_start_time new_end_time : string) : JsObj :=
  [ ("start", JsObject [("dateTime", JsString new_start_time)]);
    ("end", JsObject [("dateTime", JsString new_end_time)]) ].

(** The request has no principal, or its principal has no Google
    integration in the collection. *)
Definition unreachable (req : AuthRequest) (w : World) : Prop :=
  principal req = None
  \/ exists userId, principal req = Some userId
                    /\ find (matches userId "google") (db w) = None.

(** What [getGoogleService] throws for an unreachable request, and the
    world it leaves. *)
Definition unreachable_error (req : AuthRequest) : JsError :=
  match principal req with
  | None => Error "User not authenticated"
  | Some _ => Error "No Google integration found"
  end.

Definition unreachable_world (req : AuthRequest) (w : World) : World :=
  match principal req with
  | None => w
  | Some userId => with_trace (fun t => t ++ [StoreFindOne userId "google"]) w
  end.

(** All an unreachable request may cause: no access without principal,
    the lookup of the integration otherwise. *)
Definition unreachable_accesses (req : AuthRequest) : list Access :=
  match principal req with
  | None => []
  | Some userId => [StoreFindOne userId "google"]
  end.

(* ------------------------------------------------------------------ *)
(** ** A concrete environment and the scenarios of the specification *)

Definition sample_clock (n : nat) : Z := 1700000000000 + Z.of_nat n.

(** Stands for [toISOString]: any function of the time value will do. *)
Definition sample_toISOString (t : Z) : string := Number_toString t.

Definition alice : Id := ObjectId "64b7f0c2a1d3e4f5a6b7c8d9".
Definition bob : Id := ObjectId "64b7f0c2a1d3e4f5a6b7c8da".

Definition integration_of (owner : Id) (expires_at : option Date) : Integration.t :=
  {| Integration._id := ObjectId "650000000000000000000001";
     Integration.user_id := owner;
     Integration.name := "google";
     Integration.access_token := Some "ya29.old";
     Integration.refresh_token := Some "1//refresh";
     Integration.expires_at := expires_at;
     Integration.created_at := 1690000000000;
     Integration.updated_at := 1699999000000 |}.

(** Scenario B: expiry ten minutes ahead.  Scenario C: one minute ahead. *)
Definition fresh_integration : Integration.t :=
  integration_of alice (Some (1700000000000 + 10 * 60 * 1000)).

Definition stale_integration : Integration.t :=
  integration_of alice (Some (1700000000000 + 1 * 60 * 1000)).

Definition world_of (collection : list Integration.t) : World :=
  {| db := collection; docs := []; trace := []; ticks := 0; draws := 0;
     pending := []; unhandled := [] |}.

Definition fresh_world : World := world_of [fresh_integration].

Definition stale_world : World := world_of [stale_integration].

(** Only another user is connected. *)
Definition bob_only_world : World := world_of [integration_of bob None].

(** [stale_world] once the integration is loaded as document 0. *)
Definition stale_loaded_world : World :=
  {| db := [stale_integration]; docs := [stale_integration];
     trace := []; ticks := 0; draws := 0; pending := []; unhandled := [] |}.

Definition check_body : JsObj :=
  [ ("start_time", JsString "2024-01-01T10:00:00Z");
    ("end_time", JsString "2024-01-01T11:00:00Z") ].

Definition alice_request : AuthRequest :=
  {| user := Some {| _id := alice; email := "alice@example.com" |};
     body := check_body |}.

(** A provider that answers every refresh with [invalid_grant]. *)
Definition invalid_grant_error : JsError :=
  {| message := "invalid_grant"; response_data_error := Some "invalid_grant" |}.

Definition revoking_provider (_ : Credentials.t) : RefreshResult :=
  Rejected invalid_grant_error.

(** A provider that issues a new access token and expiry and no refresh
    token. *)
Definition new_tokens : Credentials.t :=
  Credentials.mk (Some "ya29.new") None (Some (1700000000000 + 3600 * 1000)).

Definition refreshing_provider (_ : Credentials.t) : RefreshResult :=
  Resolved (Some new_tokens)
           (Credentials.mk (Some "ya29.new") (Some "1//refresh")
                           (Some (1700000000000 + 3600 * 1000))).

Definition sample_Date_parse (s : string) : option Z :=
  if String.eqb s "2024-01-01T09:30:00Z" then Some 1704101400000
  else if String.eqb s "2024-01-01T10:00:00Z" then Some 1704103200000
  else if String.eqb s "2024-01-01T10:30:00Z" then Some 1704105000000
  else if String.eqb s "2024-01-01T11:00:00Z" then Some 1704106800000
  else if String.eqb s "2024-01-01T12:00:00Z" then Some 1704110400000
  else None.

Definition timed_event (id : string) (status : option string) (s e : string)
  : Event.t :=
  {| Event.id := Some id; Event.summary := Some id; Event.status := status;
     Event.start_dateTime := Some s; Event.end_dateTime := Some e |}.

(** One overlapping event, one cancelled, one all-day, one adjacent. *)
Definition sample_events : list Event.t :=
  [ timed_event "standup" (Some "confirmed")
      "2024-01-01T09:30:00Z" "2024-01-01T10:30:00Z";
    timed_event "dropped" (Some "cancelled")
      "2024-01-01T10:00:00Z" "2024-01-01T11:00:00Z";
    {| Event.id := Some "holiday"; Event.summary := None; Event.status := None;
       Event.start_dateTime := None; Event.end_dateTime := None |};
    timed_event "lunch" (Some "confirmed")
      "2024-01-01T11:00:00Z" "2024-01-01T12:00:00Z" ].

Definition sample_events_list (_ : OAuth2Client) (_ : ListParams)
  : Outcome (option (list Event.t)) :=
  Returned (Some sample_events).

Definition sample_events_insert (_ : OAuth2Client) (p : InsertParams)
  : Outcome JsObj :=
  Returned (("id", JsString "evt1") :: requestBody p).

Definition sample_random (_ : nat) : Z := 4242.

Definition office_event : JsObj :=
  [ ("start_time", JsString "2024-01-01T10:00:00Z");
    ("end_time", JsString "2024-01-01T11:00:00Z");
    ("title", JsString "Sync");
    ("location", JsString "Room 4") ].

Definition meet_event : JsObj :=
  [ ("start_time", JsString "2024-01-01T10:00:00Z");
    ("end_time", JsString "2024-01-01T11:00:00Z");
    ("title", JsString "Sync");
    ("location", JsString "  Google Meet ") ].

(** A provider whose token endpoint cannot be reached. *)
Definition transient_error : JsError :=
  {| message := "socket hang up"; response_data_error := None |}.

Definition failing_provider (_ : Credentials.t) : RefreshResult :=
  Rejected transient_error.

(** A provider whose event carries an expiry beyond the range of a [Date]. *)
Definition overflowing_tokens : Credentials.t :=
  Credentials.mk (Some "ya29.new") None (Some 9000000000000000).

Definition overflowing_provider (_ : Credentials.t) : RefreshResult :=
  Resolved (Some overflowing_tokens)
           (Credentials.mk (Some "ya29.new") (Some "1//refresh")
                           (Some 9000000000000000)).

(** A request the session layer attached no user to. *)
Definition anonymous_request : AuthRequest :=
  {| user := None; body := check_body |}.

Definition request_with (b : JsObj) : AuthRequest :=
  {| user := Some {| _id := alice; email := "alice@example.com" |}; body := b |}.

Definition session_of (w : World) : Session :=
  {| world := w; calendar_calls := [] |}.

(** A conflict check whose start is no date. *)
Definition bad_dates_body : JsObj :=
  [ ("start_time", JsString "tomorrow");
    ("end_time", JsString "2024-01-01T11:00:00Z") ].

(** Event data with properties [createEvent] does not destructure. *)
Definition decorated_event : JsObj :=
  [ ("start_time", JsString "2024-01-01T10:00:00Z");
    ("end_time", JsString "2024-01-01T11:00:00Z");
    ("title", JsString "Sync");
    ("summary", JsString "Override");
    ("colorId", JsString "7") ].

Definition sample_is_email (s : string) : bool :=
  existsb (Ascii.eqb "@") (list_ascii_of_string s).

Definition create_body : JsObj :=
  meet_event
  ++ [ ("participants",
        JsArray [JsString "bob@example.com"; JsString "carol@example.com"]);
       ("colorId", JsString "7") ].

Definition sample_events_patch (_ : OAuth2Client) (eventId : string)
    (requestBody : JsObj) : Outcome JsObj :=
  Returned (("id", JsString eventId) :: requestBody).

Definition sample_events_delete (_ : OAuth2Client) (_ : string) : Outcome unit :=
  Returned tt.

(** The event has two guests and a room without e-mail. *)
Definition sample_events_get (_ : OAuth2Client) (eventId : string) : Outcome JsObj :=
  Returned
    [ ("id", JsString eventId);
      ("attendees",
       JsArray [ JsObject [("email", JsString "bob@example.com")];
                 JsObject [("email", JsString "dave@example.com")];
                 JsObject [("displayName", JsString "Room 4")] ]) ].

Definition sample_changes : Changes :=
  {| ch_title := Some "Renamed";
     ch_description := Some EmptyString;
     ch_add_participants := Some ["carol@example.com"];
     ch_remove_participants := Some ["bob@example.com"];
     ch_add_meet_link := Some true |}.

Definition edit_body : JsObj :=
  [ ("event_id", JsString "evt1");
    ("changes",
     JsObject
       [ ("title", JsString "Renamed");
         ("description", JsString EmptyString);
         ("add_participants", JsArray [JsString "carol@example.com"]);
         ("remove_participants", JsArray [JsString "bob@example.com"]);
         ("add_meet_link", JsBool true) ]) ].

(** The new end precedes the new start. *)
Definition reschedule_request_body : JsObj :=
  [ ("event_id", JsString "evt1");
    ("new_start_time", JsString "2024-01-01T11:00:00Z");
    ("new_end_time", JsString "2024-01-01T10:00:00Z") ].

Definition sample_coerce_date (v : JsValue) : option Z :=
  match v with
  | JsString s => sample_Date_parse s
  | JsNumber t => Some t
  | _ => None
  end.

(** Stands for [getDayBoundsInUTC]: the bounds of the UTC day. *)
Definition sample_getDayBounds (date : Z) (_ : string) : Outcome (string * string) :=
  let day := date - date mod 86400000 in
  Returned (Number_toString day, Number_toString (day + 86399999)).

Definition fetch_body : JsObj := [ ("start_date", JsString "2024-01-01T10:00:00Z") ].

(** A timed event and an all-day event without summary. *)
Definition listed_events : list JsObj :=
  [ [ ("id", JsString "standup");
      ("summary", JsString "Standup");
      ("start", JsObject [("dateTime", JsString "2024-01-01T09:30:00Z")]);
      ("end", JsObject [("dateTime", JsString "2024-01-01T10:30:00Z")]);
      ("attendees", JsArray [JsObject [("email", JsString "bob@example.com")]]) ];
    [ ("id", JsString "holiday");
      ("start", JsObject [("date", JsString "2024-01-01")]);
      ("end", JsObject [("date", JsString "2024-01-02")]) ] ].

Definition sample_events_list_with (_ : OAuth2Client) (_ : JsObj)
  : Outcome (option (list JsObj)) :=
  Returned (Some listed_events).

(** A payload every controller but the fetch finds valid. *)
Definition any_body : JsObj :=
  check_body ++ reschedule_request_body
  ++ [ ("changes", JsObject [("title", JsString "Renamed")]) ].

(** The bytes of a string. *)
Definition utf8 (bytes : list Z) : string :=
  string_of_list_ascii (map (fun b => ascii_of_nat (Z.to_nat b)) bytes).

(** Every white-space character and line terminator of JavaScript: TAB,
    LF, VT, FF, CR, SPACE, U+00A0, U+1680, U+2000 to U+200A, U+2028,
    U+2029, U+202F, U+205F, U+3000, U+FEFF. *)
Definition white_space_characters : list string :=
  [ utf8 [9]; utf8 [10]; utf8 [11]; utf8 [12]; utf8 [13]; utf8 [32];
    utf8 [194; 160]; utf8 [225; 154; 128];
    utf8 [226; 128; 128]; utf8 [226; 128; 129]; utf8 [226; 128; 130];
    utf8 [226; 128; 131]; utf8 [226; 128; 132]; utf8 [226; 128; 133];
    utf8 [226; 128; 134]; utf8 [226; 128; 135]; utf8 [226; 128; 136];
    utf8 [226; 128; 137]; utf8 [226; 128; 138];
    utf8 [226; 128; 168]; utf8 [226; 128; 169]; utf8 [226; 128; 175];
    utf8 [226; 129; 159]; utf8 [227; 128; 128]; utf8 [239; 187; 191] ].

(** The marker in capitals between all of them, in both orders. *)
Definition padded_marker : string :=
  (String.concat EmptyString white_space_characters
   ++ "GOOGLE Meet"
   ++ String.concat EmptyString (rev white_space_characters))%string.

(** The marker after U+200B ZERO WIDTH SPACE, U+0085 NEXT LINE and U+180E,
    none of which [trim] strips. *)
Definition zero_width_marker : string :=
  (utf8 [226; 128; 139] ++ "google meet")%string.

Definition next_line_marker : string :=
  ("google meet" ++ utf8 [194; 133])%string.

Definition vowel_separator_marker : string :=
  (utf8 [225; 160; 142] ++ "google meet")%string.

Definition event_at (location : string) : JsObj :=
  [ ("start_time", JsString "2024-01-01T10:00:00Z");
    ("end_time", JsString "2024-01-01T11:00:00Z");
    ("title", JsString "Sync");
    ("location", JsString location) ].

(* ------------------------------------------------------------------ *)
(** ** Properties *)

Lemma opt_string_eqb_eq a b : opt_string_eqb a b = true <-> a = b.
Proof.
  destruct a as [x|], b as [y|]; simpl; try (split; congruence).
  rewrite String.eqb_eq. split; congruence.
Qed.

Lemma opt_string_eqb_refl a : opt_string_eqb a a = true.
Proof. now apply opt_string_eqb_eq. Qed.

Lemma principal_inv req i :
  principal req = Some i ->
  exists u, user req = Some u /\ _id u = i /\ truthy_Id i = true.
Proof.
  unfold principal. destruct (user req) as [u|]; [|discriminate].
  destruct (truthy_Id (_id u)) eqn:E; [|discriminate].
  intros [= <-]. eauto.
Qed.

Lemma string_eqb_false a b : a <> b -> String.eqb a b = false.
Proof. intro H. now apply String.eqb_neq. Qed.

(** *** The authorization gate *)

(** C1.  For a verified principal [userA] and a resource owner [userB]:
    [authorizeUserAccess] throws its Unauthorized error whenever the
    string forms of the two ids differ and returns [true] whenever they
    are equal.  The inline gate of [getGoogleServiceByUserId] throws its
    Unauthorized error, touching nothing, for every two distinct ids, and
    for equal ids lets the call through: it then does exactly what
    [getGoogleService] does for that principal. *)
Theorem C1_authorization_gate :
  (forall req userA userB,
      principal req = Some userA ->
      (Id_toString userA <> userB ->
       authorizeUserAccess req userB
       = Thrown (Error "Unauthorized: Cannot access another user's resources"))
      /\ (Id_toString userA = userB ->
          authorizeUserAccess req userB = Returned true))
  /\ (forall userA userB w,
         userA <> userB ->
         getGoogleServiceByUserId userA userB w
         = (Thrown (Error "Unauthorized: Cannot access another user's integrations"), w))
  /\ (forall userA b w,
         truthy_string userA = true ->
         getGoogleServiceByUserId userA userA w
         = getGoogleService (request_of (IdString userA) b) w).
Proof.
  split; [|split].
  - intros req a b Hp.
    destruct (principal_inv _ _ Hp) as (u & Hu & <- & Ht).
    unfold authorizeUserAccess. rewrite Hu, Ht. simpl.
    split; intro H.
    + now rewrite (string_eqb_false _ _ H).
    + rewrite <- H, String.eqb_refl. reflexivity.
  - intros a b w H. unfold getGoogleServiceByUserId.
    now rewrite (string_eqb_false _ _ H).
  - intros a b w Ht. unfold getGoogleServiceByUserId, getGoogleService.
    rewrite String.eqb_refl. simpl. rewrite Ht. reflexivity.
Qed.

(** C6.  [getGoogleServiceByUserId] checks the two ids before anything
    else: for distinct target and calling ids it throws Unauthorized in
    every world (whatever the collection holds), and the world is left as
    it was: no store access, no provider call, nothing loaded, no clock
    reading. *)
Theorem C6_gate_before_store (userId requestingUserId : string) (w : World) :
  userId <> requestingUserId ->
  exists w',
    getGoogleServiceByUserId userId requestingUserId w
    = (Thrown (Error "Unauthorized: Cannot access another user's integrations"), w')
    /\ w' = w
    /\ trace w' = trace w
    /\ filter is_store_access (trace w') = filter is_store_access (trace w)
    /\ filter is_provider_call (trace w') = filter is_provider_call (trace w).
Proof.
  intro H. exists w. unfold getGoogleServiceByUserId.
  rewrite (string_eqb_false _ _ H). simpl. repeat split; reflexivity.
Qed.

(** *** Not connected *)

Lemma findOne_none uid nm w :
  find (matches uid nm) (db w) = None ->
  findOne uid nm w = (Returned None, with_trace (fun t => t ++ [StoreFindOne uid nm]) w).
Proof.
  intro H. unfold findOne, bind, log. simpl. now rewrite H.
Qed.

Lemma findOne_some uid nm w d :
  find (matches uid nm) (db w) = Some d ->
  findOne uid nm w
  = (Returned (Some (length (docs w))),
     with_docs (fun m => m ++ [d])
       (with_trace (fun t => t ++ [StoreFindOne uid nm]) w)).
Proof.
  intro H. unfold findOne, bind, log. simpl. now rewrite H.
Qed.

Lemma getGoogleService_not_connected req userId w :
  principal req = Some userId ->
  find (matches userId "google") (db w) = None ->
  getGoogleService req w
  = (Thrown (Error "No Google integration found"),
     with_trace (fun t => t ++ [StoreFindOne userId "google"]) w).
Proof.
  intros Hp Hf.
  destruct (principal_inv _ _ Hp) as (u & Hu & <- & Ht).
  unfold getGoogleService. rewrite Hu, Ht. simpl.
  unfold bind. now rewrite (findOne_none _ _ _ Hf).
Qed.

(** C7.  For an authenticated user with no stored Google integration,
    [getGoogleService] throws "No Google integration found"; the only
    effect is the one [findOne] lookup: no document is loaded, no client
    is configured, the collection is untouched and the provider is not
    called. *)
Theorem C7_not_connected (req : AuthRequest) (userId : Id) (w : World) :
  principal req = Some userId ->
  find (matches userId "google") (db w) = None ->
  exists w',
    getGoogleService req w = (Thrown (Error "No Google integration found"), w')
    /\ trace w' = trace w ++ [StoreFindOne userId "google"]
    /\ db w' = db w
    /\ docs w' = docs w
    /\ filter is_provider_call (trace w') = filter is_provider_call (trace w).
Proof.
  intros Hp Hf.
  rewrite (getGoogleService_not_connected req userId w Hp Hf).
  eexists. split; [reflexivity|]. simpl.
  repeat split. rewrite filter_app. simpl. now rewrite app_nil_r.
Qed.

(** *** The refresh protocol *)

Lemma bind_ret_r {A} (c : Async A) w : bind c ret w = c w.
Proof. unfold bind, ret. destruct (c w) as [[a|e] w']; reflexivity. Qed.

Lemma attempts_log a w :
  refresh_attempts (with_trace (fun t => t ++ [a]) w)
  = (refresh_attempts w + (if is_token_call a then 1 else 0))%nat.
Proof.
  unfold refresh_attempts. simpl. rewrite filter_app, length_app. simpl.
  destruct (is_token_call a); reflexivity.
Qed.

Lemma call_listener_attempts r t w :
  refresh_attempts (snd (call_listener r t w)) = refresh_attempts w.
Proof.
  unfold call_listener, tokens_listener_issue, bind, deref, lift.
  destruct (nth_error (docs w) r) as [doc|]; [|reflexivity].
  destruct (listener_updates doc t) as [u|e]; [|reflexivity].
  destruct (0 <? Updates.keys_length u)%nat; [|reflexivity].
  unfold refresh_attempts. simpl. rewrite filter_app. simpl. now rewrite app_nil_r.
Qed.

Lemma emit_tokens_attempts ls t w :
  refresh_attempts (snd (emit_tokens ls t w)) = refresh_attempts w.
Proof.
  revert w. induction ls as [|l ls IH]; intro w; [reflexivity|].
  simpl. unfold bind.
  pose proof (call_listener_attempts l t w) as H.
  destruct (call_listener l t w) as [[[]|e] w1]; simpl in *;
    [rewrite IH|]; exact H.
Qed.

Lemma getAccessToken_attempts c w :
  refresh_attempts (snd (getAccessToken c w)) = S (refresh_attempts w).
Proof.
  unfold getAccessToken, bind. simpl.
  set (w1 := with_trace _ w).
  assert (H1 : refresh_attempts w1 = S (refresh_attempts w)).
  { unfold w1. rewrite attempts_log. simpl. lia. }
  destruct (provider_refresh (credentials c)) as [[t|] c'|err]; simpl; try exact H1.
  pose proof (emit_tokens_attempts (tokens_listeners c) t w1) as H.
  destruct (emit_tokens (tokens_listeners c) t w1) as [[[]|e] w2]; simpl in *; lia.
Qed.

Lemma ensureFreshAccessToken_attempts c r w doc :
  nth_error (docs w) r = Some doc ->
  refresh_attempts (snd (ensureFreshAccessToken c r w))
  = if needs_refresh (exp_of (Integration.expires_at doc)) (clock (ticks w))
    then S (refresh_attempts w) else refresh_attempts w.
Proof.
  intro Hd. unfold ensureFreshAccessToken, bind, Date_now, deref. simpl.
  rewrite Hd.
  destruct (needs_refresh _ _); [|reflexivity].
  unfold try_catch.
  pose proof (getAccessToken_attempts c (with_ticks S w)) as H.
  destruct (getAccessToken c (with_ticks S w)) as [[c'|err] w1]; simpl in *.
  - exact H.
  - unfold bind, deref, new_Date, Date_now, throw.
    destruct (invalid_grant err); simpl; [|exact H].
    destruct (nth_error (docs w1) r) as [doc1|]; simpl; [|exact H].
    unfold refresh_attempts in *. simpl. rewrite filter_app. simpl.
    now rewrite app_nil_r.
Qed.

Lemma needs_refresh_spec (expires_at : option Date) (now : Z) :
  0 <= now ->
  (needs_refresh (exp_of expires_at) now = true
   <-> expires_at = None
       \/ exists e, expires_at = Some e /\ e - now <= TOKEN_SKEW_MS).
Proof.
  intro Hnow. unfold needs_refresh, truthy_number, TOKEN_SKEW_MS.
  rewrite orb_true_iff, negb_true_iff, negb_false_iff, Z.eqb_eq, Z.leb_le.
  destruct expires_at as [e|]; simpl.
  - split.
    + intros [H|H]; right; exists e; split; auto; lia.
    + intros [H|(e' & [= <-] & H)]; [discriminate|]. now right.
  - split; auto.
Qed.

(** Without the assumption on the clock: the test also fires when the
    stored expiry is the epoch itself, whose time value is [0]. *)
Lemma needs_refresh_true_iff (expires_at : option Date) (now : Z) :
  needs_refresh (exp_of expires_at) now = true
  <-> expires_at = None
      \/ exists e, expires_at = Some e /\ (e = 0 \/ e - now <= TOKEN_SKEW_MS).
Proof.
  unfold needs_refresh, truthy_number.
  rewrite orb_true_iff, negb_true_iff, negb_false_iff, Z.eqb_eq, Z.leb_le.
  destruct expires_at as [e|]; simpl.
  - split.
    + intro H. right. exists e. split; [reflexivity|exact H].
    + intros [H|(e' & [= <-] & H)]; [discriminate|exact H].
  - split; [now left|now left].
Qed.

(** C2.  [ensureFreshAccessToken] calls the token endpoint exactly when the
    document's [expires_at] is absent or lies at most [TOKEN_SKEW_MS]
    (five minutes, in milliseconds) after the clock reading it takes, and
    then it calls it once; otherwise it does not call it.  The clock
    reading is a time since the epoch, hence not negative. *)
Theorem C2_freshness_test (client : OAuth2Client) (integration : DocRef)
    (w : World) (doc : Integration.t) :
  nth_error (docs w) integration = Some doc ->
  0 <= clock (ticks w) ->
  let now := clock (ticks w) in
  let w' := snd (ensureFreshAccessToken client integration w) in
  let stale :=
    Integration.expires_at doc = None
    \/ exists e, Integration.expires_at doc = Some e /\ e - now <= 5 * 60 * 1000 in
  TOKEN_SKEW_MS = 5 * 60 * 1000
  /\ (refresh_attempts w' = S (refresh_attempts w) <-> stale)
  /\ (refresh_attempts w' = refresh_attempts w <-> ~ stale).
Proof.
  intros Hd Hnow now w' stale.
  split; [reflexivity|].
  assert (Hs : needs_refresh (exp_of (Integration.expires_at doc)) now = true <-> stale)
    by (apply needs_refresh_spec; exact Hnow).
  unfold w'. rewrite (ensureFreshAccessToken_attempts _ _ _ _ Hd).
  fold now. destruct (needs_refresh _ now).
  - assert (Hst : stale) by now apply Hs.
    split; split; intro H'.
    + exact Hst.
    + reflexivity.
    + exfalso. revert H'. apply Nat.neq_succ_diag_l.
    + contradiction.
  - assert (Hst : ~ stale) by (intro H'; apply Hs in H'; discriminate).
    split; split; intro H'.
    + exfalso. symmetry in H'. revert H'. apply Nat.neq_succ_diag_l.
    + contradiction.
    + exact Hst.
    + reflexivity.
Qed.

Lemma nth_error_snoc {A} (l : list A) (x : A) :
  nth_error (l ++ [x]) (length l) = Some x.
Proof. induction l as [|y l IH]; simpl; auto. Qed.

Lemma getGoogleService_found req uid w d :
  principal req = Some uid ->
  find (matches uid "google") (db w) = Some d ->
  getGoogleService req w
  = ensureFreshAccessToken (listening_client d (length (docs w)))
      (length (docs w)) (loaded uid d w).
Proof.
  intros Hp Hf.
  destruct (principal_inv _ _ Hp) as (u & Hu & <- & Ht).
  unfold getGoogleService. rewrite Hu, Ht. simpl.
  unfold bind at 1. rewrite (findOne_some _ _ _ _ Hf).
  unfold bind at 1. unfold deref. simpl. rewrite nth_error_snoc.
  unfold bind at 1. unfold refreshAndSaveTokens, ret at 1.
  apply bind_ret_r.
Qed.

Lemma ensureFreshAccessToken_fresh c r w doc :
  nth_error (docs w) r = Some doc ->
  needs_refresh (exp_of (Integration.expires_at doc)) (clock (ticks w)) = false ->
  ensureFreshAccessToken c r w = (Returned c, with_ticks S w).
Proof.
  intros Hd Hn. unfold ensureFreshAccessToken, bind, Date_now, deref. simpl.
  now rewrite Hd, Hn.
Qed.

Lemma fresh_needs_no_refresh e now :
  0 <= now -> now + TOKEN_SKEW_MS < e ->
  needs_refresh (exp_of (Some e)) now = false.
Proof.
  unfold needs_refresh, truthy_number, TOKEN_SKEW_MS. simpl. intros H0 H.
  apply orb_false_iff. split.
  - apply negb_false_iff, negb_true_iff, Z.eqb_neq. lia.
  - apply Z.leb_gt. lia.
Qed.

(** C3.  When the stored [expires_at] lies more than [TOKEN_SKEW_MS] after
    the clock reading, [getGoogleService] returns the client configured
    from the stored record; its only access is the [findOne] read: the
    token endpoint is not called and the collection is unchanged.  Calling
    it again while the token is still fresh returns the same client, with
    one more read and still no write and no provider call. *)
Theorem C3_fresh_is_noop (req : AuthRequest) (userId : Id) (w : World)
    (d : Integration.t) (e : Z) :
  principal req = Some userId ->
  find (matches userId "google") (db w) = Some d ->
  Integration.expires_at d = Some e ->
  0 <= clock (ticks w) ->
  clock (ticks w) + TOKEN_SKEW_MS < e ->
  exists client w1,
    getGoogleService req w = (Returned client, w1)
    /\ credentials client = credentials (configured_client d)
    /\ db w1 = db w
    /\ trace w1 = trace w ++ [StoreFindOne userId "google"]
    /\ (0 <= clock (ticks w1) ->
        clock (ticks w1) + TOKEN_SKEW_MS < e ->
        exists client' w2,
          getGoogleService req w1 = (Returned client', w2)
          /\ credentials client' = credentials client
          /\ db w2 = db w
          /\ trace w2 = trace w ++ [StoreFindOne userId "google";
                                     StoreFindOne userId "google"]
          /\ filter is_store_write (trace w2) = filter is_store_write (trace w)
          /\ filter is_provider_call (trace w2) = filter is_provider_call (trace w)).
Proof.
  intros Hp Hf He H0 Hfresh.
  assert (Hrun : forall v, db v = db w ->
             0 <= clock (ticks v) -> clock (ticks v) + TOKEN_SKEW_MS < e ->
             getGoogleService req v
             = (Returned (listening_client d (length (docs v))),
                with_ticks S (loaded userId d v))).
  { intros v Hdb Hv0 Hv.
    rewrite (getGoogleService_found req userId v d Hp) by (now rewrite Hdb).
    apply ensureFreshAccessToken_fresh with (doc := d).
    - simpl. apply nth_error_snoc.
    - rewrite He. simpl ticks. now apply fresh_needs_no_refresh. }
  eexists; eexists. split; [apply (Hrun w eq_refl H0 Hfresh)|].
  simpl. repeat split.
  intros H1 Hfresh1.
  eexists; eexists. split; [apply Hrun; [reflexivity|exact H1|exact Hfresh1]|].
  simpl. repeat split.
  - now rewrite <- app_assoc.
  - rewrite !filter_app. simpl. now rewrite !app_nil_r.
  - rewrite !filter_app. simpl. now rewrite !app_nil_r.
Qed.





Lemma ensureFreshAccessToken_revoked c r w doc err :
  nth_error (docs w) r = Some doc ->
  needs_refresh (exp_of (Integration.expires_at doc)) (clock (ticks w)) = true ->
  provider_refresh (credentials c) = Rejected err ->
  invalid_grant err = true ->
  ensureFreshAccessToken c r w
  = (Thrown err,
     with_db (set_first (Integration._id doc) (touch (clock (S (ticks w)))))
       (with_trace
          (fun t => t ++ [StoreUpdateOne (Integration._id doc)
                            (touch (clock (S (ticks w))))])
          (with_ticks S
             (with_trace (fun t => t ++ [ProviderGetAccessToken (credentials c)])
                (with_ticks S w))))).
Proof.
  intros Hd Hn Hp Hg.
  unfold ensureFreshAccessToken, bind, Date_now, deref. simpl.
  rewrite Hd, Hn. unfold try_catch, getAccessToken, bind. simpl.
  rewrite Hp. unfold throw at 1. rewrite Hg.
  unfold bind, deref, new_Date, Date_now. simpl. rewrite Hd. reflexivity.
Qed.



Lemma changed_token_spec (tok stored : option string) :
  truthy_opt_string tok && negb (opt_string_eqb tok stored) = true ->
  forall a, tok = Some a -> tok = Some a /\ a <> EmptyString /\ stored <> Some a.
Proof.
  intros E a ->. apply andb_true_iff in E. destruct E as [Et En].
  repeat split.
  - intros ->. discriminate.
  - intros ->. rewrite opt_string_eqb_refl in En. discriminate.
Qed.

Lemma changed_expiry_spec (x : Z) (stored : option Date) :
  truthy_number x = true ->
  negb (opt_string_eqb (Some (toISOString x)) (option_map toISOString stored)) = true ->
  forall e, Some x = Some e ->
            Some x = Some e /\ e <> 0 /\ stored <> Some e.
Proof.
  intros Ex En e [= <-]. repeat split.
  - unfold truthy_number in Ex. now apply negb_true_iff, Z.eqb_neq in Ex.
  - intros ->. simpl in En. rewrite String.eqb_refl in En. discriminate.
Qed.

(** What the listener puts in [updates]: a token of the event that is
    non-empty and is not the one of the document, an expiry of the event
    that is not zero and is not the one of the document; never
    [updated_at]. *)
Lemma listener_updates_sound doc tokens u :
  listener_updates doc tokens = Returned u ->
  (forall a, Updates.access_token u = Some a ->
             Credentials.access_token tokens = Some a
             /\ a <> EmptyString /\ Integration.access_token doc <> Some a)
  /\ (forall r, Updates.refresh_token u = Some r ->
                Credentials.refresh_token tokens = Some r
                /\ r <> EmptyString /\ Integration.refresh_token doc <> Some r)
  /\ (forall e, Updates.expires_at u = Some e ->
                Credentials.expiry_date tokens = Some e
                /\ e <> 0 /\ Integration.expires_at doc <> Some e)
  /\ Updates.updated_at u = None.
Proof.
  unfold listener_updates, Date_toISOString.
  destruct (truthy_opt_string (Credentials.access_token tokens) && _) eqn:Ea;
  destruct (truthy_opt_string (Credentials.refresh_token tokens) && _) eqn:Er;
  (destruct (Credentials.expiry_date tokens) as [x|];
   [ destruct (truthy_number x) eqn:Ex;
     [ destruct (Date_valid x);
       [ destruct (negb (opt_string_eqb (Some _) _)) eqn:En | ] | ] | ]);
  simpl; intro H; try discriminate H; injection H as <-; simpl;
  (split; [|split; [|split]]); try reflexivity; try discriminate;
  try (apply changed_token_spec; assumption);
  try (apply changed_expiry_spec; assumption).
Qed.

(** Conversely, a non-empty access token of the event that is not the one
    of the document is always put in [updates]. *)
Lemma listener_updates_access_token doc tokens u a :
  listener_updates doc tokens = Returned u ->
  Credentials.access_token tokens = Some a ->
  a <> EmptyString ->
  Integration.access_token doc <> Some a ->
  Updates.access_token u = Some a.
Proof.
  intros H Ha Hne Hd.
  assert (E : truthy_opt_string (Credentials.access_token tokens)
              && negb (opt_string_eqb (Credentials.access_token tokens)
                                      (Integration.access_token doc)) = true).
  { rewrite Ha. apply andb_true_iff. split.
    - destruct a; [contradiction|reflexivity].
    - apply negb_true_iff.
      destruct (opt_string_eqb (Some a) (Integration.access_token doc)) eqn:E;
        [|reflexivity].
      apply opt_string_eqb_eq in E. congruence. }
  unfold listener_updates, Date_toISOString in H.
  rewrite E in H. rewrite Ha in H.
  destruct (truthy_opt_string (Credentials.refresh_token tokens) && _);
  (destruct (Credentials.expiry_date tokens) as [x|];
   [ destruct (truthy_number x);
     [ destruct (Date_valid x);
       [ destruct (negb (opt_string_eqb (Some _) _)) | ] | ] | ]);
  simpl in H; try discriminate H; injection H as <-; reflexivity.
Qed.


Lemma tokens_listener_run r tokens w doc :
  nth_error (docs w) r = Some doc ->
  tokens_listener r tokens w
  = match listener_updates doc tokens with
    | Returned u =>
        if (0 <? Updates.keys_length u)%nat
        then (Returned tt, written r doc (stamped u (clock (ticks w))) w)
        else (Returned tt, w)
    | Thrown e => (Thrown e, w)
    end.
Proof.
  intro Hd. unfold tokens_listener, tokens_listener_issue, bind, deref, lift.
  rewrite Hd.
  destruct (listener_updates doc tokens) as [u|e]; [|reflexivity].
  destruct (0 <? Updates.keys_length u)%nat; reflexivity.
Qed.

Lemma call_listener_run r tokens w doc :
  nth_error (docs w) r = Some doc ->
  call_listener r tokens w
  = match listener_updates doc tokens with
    | Returned u =>
        if (0 <? Updates.keys_length u)%nat
        then (Returned tt, issued r doc (stamped u (clock (ticks w))) w)
        else (Returned tt, w)
    | Thrown e => (Returned tt, with_unhandled (fun l => l ++ [e]) w)
    end.
Proof.
  intro Hd. unfold call_listener, tokens_listener_issue, bind, deref, lift.
  rewrite Hd.
  destruct (listener_updates doc tokens) as [u|e]; [|reflexivity].
  destruct (0 <? Updates.keys_length u)%nat; reflexivity.
Qed.

Lemma remove_nth_snoc {A} (l : list A) x : remove_nth (length l) (l ++ [x]) = l.
Proof. induction l as [|y l IH]; simpl; [reflexivity|now rewrite IH]. Qed.

(** The store applies, or rejects, the write a listener has just issued. *)
Lemma settle_issued r doc u w answer :
  settle (length (pending w)) answer (issued r doc u w)
  = match answer with
    | Returned _ => written r doc u w
    | Thrown e =>
        with_unhandled (fun l => l ++ [e])
          (with_trace (fun t => t ++ [StoreUpdateOne (Integration._id doc) u])
             (with_ticks S w))
    end.
Proof.
  unfold settle, issued. cbn [pending with_pending with_trace with_ticks].
  rewrite nth_error_snoc.
  unfold tokens_listener_resume, written, suspended, store_apply, Object_assign,
    bind, throw, with_pending, with_unhandled, with_docs, with_db, with_trace,
    with_ticks.
  cbn. rewrite remove_nth_snoc. destruct answer; reflexivity.
Qed.

Lemma ensureFreshAccessToken_resolved r w doc cr emitted credentials' :
  nth_error (docs w) r = Some doc ->
  needs_refresh (exp_of (Integration.expires_at doc)) (clock (ticks w)) = true ->
  provider_refresh cr = Resolved emitted credentials' ->
  let c := {| credentials := cr; tokens_listeners := [r] |} in
  let c' := {| credentials := credentials'; tokens_listeners := [r] |} in
  let w1 := with_trace (fun t => t ++ [ProviderGetAccessToken cr]) (with_ticks S w) in
  ensureFreshAccessToken c r w
  = match emitted with
    | Some tokens =>
        match listener_updates doc tokens with
        | Returned u =>
            if (0 <? Updates.keys_length u)%nat
            then (Returned c', issued r doc (stamped u (clock (S (ticks w)))) w1)
            else (Returned c', w1)
        | Thrown e => (Returned c', with_unhandled (fun l => l ++ [e]) w1)
        end
    | None => (Returned c', w1)
    end.
Proof.
  intros Hd Hn Hp c c' w1.
  unfold ensureFreshAccessToken, bind, Date_now, deref. simpl.
  rewrite Hd, Hn. unfold try_catch, getAccessToken, bind. simpl.
  rewrite Hp. destruct emitted as [tokens|]; [|reflexivity].
  unfold emit_tokens, bind.
  rewrite (call_listener_run r tokens _ doc) by exact Hd.
  destruct (listener_updates doc tokens) as [u|e]; [|reflexivity].
  destruct (0 <? Updates.keys_length u)%nat; reflexivity.
Qed.

Lemma listener_updates_char doc tokens :
  listener_updates doc tokens
  = if expiry_out_of_range (Credentials.expiry_date tokens)
    then Thrown (RangeError "Invalid time value")
    else Returned
           (Updates.mk
              (changed (Credentials.access_token tokens) (Integration.access_token doc))
              (changed (Credentials.refresh_token tokens) (Integration.refresh_token doc))
              (changed_expiry (Credentials.expiry_date tokens)
                              (Integration.expires_at doc))
              None).
Proof.
  unfold listener_updates, Date_toISOString, changed, changed_expiry,
    expiry_out_of_range.
  destruct (truthy_opt_string (Credentials.access_token tokens) && _);
  destruct (truthy_opt_string (Credentials.refresh_token tokens) && _);
  (destruct (Credentials.expiry_date tokens) as [x|];
   [ destruct (truthy_number x);
     [ destruct (Date_valid x);
       [ destruct (negb (opt_string_eqb (Some _) _)) | ] | ] | ]);
  reflexivity.
Qed.


Lemma changed_expiry_iff (expiry_date : option Z) (stored : option Date) (e : Z) :
  changed_expiry expiry_date stored = Some e
  <-> expiry_date = Some e /\ e <> 0
      /\ Some (toISOString e) <> option_map toISOString stored.
Proof.
  unfold changed_expiry, truthy_number. split.
  - destruct expiry_date as [x|]; [|discriminate].
    destruct (opt_string_eqb (Some (toISOString x)) (option_map toISOString stored))
      eqn:E; [rewrite andb_false_r; discriminate|].
    destruct (negb (x =? 0)) eqn:E0; [|discriminate].
    intros [= <-]. split; [reflexivity|]. split.
    + now apply negb_true_iff, Z.eqb_neq in E0.
    + intro H. rewrite H, opt_string_eqb_refl in E. discriminate E.
  - intros (-> & Hne & Hd).
    apply Z.eqb_neq in Hne. rewrite Hne.
    destruct (opt_string_eqb (Some (toISOString e)) (option_map toISOString stored))
      eqn:E; [|reflexivity].
    apply opt_string_eqb_eq in E. contradiction.
Qed.



(** *** The authorization URL *)

(** C8.  For every list of scopes and every optional state,
    [getGoogleOAuthUrl] returns, without touching the world, the URL the
    SDK generates from an options object in which [access_type] is
    "offline" and [prompt] is "consent", with the given scopes and state:
    the two parameters do not depend on the arguments. *)
Theorem C8_offline_and_consent (scopes : list string) (state_ : option string)
    (w : World) :
  exists opts,
    getGoogleOAuthUrl scopes state_ w = (Returned (generateAuthUrl opts), w)
    /\ access_type opts = Some "offline"
    /\ prompt opts = Some "consent"
    /\ scope opts = scopes
    /\ state opts = state_.
Proof.
  eexists. unfold getGoogleOAuthUrl, ret. split; [reflexivity|].
  simpl. repeat split.
Qed.

(** *** The conflict check *)

Lemma overlapsb_spec startTime endTime e :
  overlapsb startTime endTime e = true <-> overlaps startTime endTime e.
Proof.
  unfold overlapsb, overlaps.
  rewrite andb_true_iff, negb_true_iff.
  split.
  - intros [Hc Ht]. split.
    + intro H. rewrite H in Hc. rewrite opt_string_eqb_refl in Hc. discriminate.
    + destruct (event_time (Event.start_dateTime e)) as [s|]; [|discriminate].
      destruct (event_time (Event.end_dateTime e)) as [en|]; [|discriminate].
      apply andb_true_iff in Ht. destruct Ht as [H1 H2].
      apply Z.ltb_lt in H1, H2. exists s, en. repeat split; assumption.
  - intros [Hc (s & en & -> & -> & H1 & H2)]. split.
    + destruct (opt_string_eqb _ _) eqn:E; [|reflexivity].
      apply opt_string_eqb_eq in E. contradiction.
    + apply andb_true_iff. split; now apply Z.ltb_lt.
Qed.

Lemma checkConflict_step_spec startTime endTime acc e :
  (overlapsb startTime endTime e = true
   /\ exists c, reported e c
                /\ checkConflict_step startTime endTime acc e = acc ++ [c])
  \/ (overlapsb startTime endTime e = false
      /\ checkConflict_step startTime endTime acc e = acc).
Proof.
  unfold checkConflict_step, overlapsb, reported, event_time.
  destruct (opt_string_eqb (Event.status e) (Some "cancelled")); simpl; [now right|].
  destruct (Event.start_dateTime e) as [sd|]; [|now right].
  destruct (truthy_string sd); [|now right].
  destruct (Event.end_dateTime e) as [ed|].
  2:{ right. destruct (new_Date_of_string sd); auto. }
  destruct (truthy_string ed).
  2:{ right. destruct (new_Date_of_string sd); auto. }
  destruct (new_Date_of_string sd) as [s|]; [|now right].
  destruct (new_Date_of_string ed) as [en|]; [|now right].
  destruct ((s <? endTime) && (startTime <? en)); [|now right].
  left. split; [reflexivity|]. eexists. split; [|reflexivity]. eauto.
Qed.

Lemma checkConflict_loop_spec startTime endTime events :
  forall acc, exists conflicts,
    fold_left (checkConflict_step startTime endTime) events acc = acc ++ conflicts
    /\ Forall2 reported (filter (overlapsb startTime endTime) events) conflicts.
Proof.
  induction events as [|e events IH]; intro acc; simpl.
  - exists []. split; [now rewrite app_nil_r|constructor].
  - destruct (checkConflict_step_spec startTime endTime acc e)
      as [(Ho & c & Hc & ->)|(Ho & ->)]; rewrite Ho.
    + destruct (IH (acc ++ [c])) as (cs & -> & HF).
      exists (c :: cs). split; [now rewrite <- app_assoc|].
      constructor; assumption.
    + apply IH.
Qed.

(** C9.  Once the client is obtained, for a request whose [start_time] and
    [end_time] are non-empty strings denoting valid dates and for the
    events the provider lists, [checkConflict] scans them once: it returns,
    in the order fetched, one entry per event that is not cancelled, has a
    timed start and a timed end, and starts before the requested end and
    ends after the requested start, each entry carrying the id, summary,
    start and end of its event; and the controller answers 200 with
    [conflict] true exactly when that list is not empty. *)
Theorem C9_conflict_scan (req : AuthRequest) (start end_ : string)
    (startTime endTime : Z) (w w1 : World) (client : OAuth2Client)
    (items : option (list Event.t)) :
  obj_get "start_time" (body req) = JsString start ->
  obj_get "end_time" (body req) = JsString end_ ->
  start <> EmptyString -> end_ <> EmptyString ->
  new_Date_of_string start = Some startTime ->
  new_Date_of_string end_ = Some endTime ->
  getGoogleService req w = (Returned client, w1) ->
  calendar_events_list client (conflict_query startTime endTime) = Returned items ->
  let events := match items with Some l => l | None => [] end in
  let selected := filter (overlapsb startTime endTime) events in
  exists conflicts w' conflict,
    checkConflict req start end_ w = (Returned conflicts, w')
    /\ trace w' = trace w1 ++ [ProviderEventsList (conflict_query startTime endTime)]
    /\ (forall e, In e selected <-> In e events /\ overlaps startTime endTime e)
    /\ Forall2 reported selected conflicts
    /\ checkConflictController req w
       = (Returned {| status := 200;
                      json := ConflictJson true conflict conflicts |}, w')
    /\ (conflict = true <-> conflicts <> []).
Proof.
  intros Hbs Hbe Hs He Hds Hde Hg Hl events selected.
  destruct (checkConflict_loop_spec startTime endTime events [])
    as (conflicts & Hfold & HF).
  simpl in Hfold.
  assert (Hrun : checkConflict req start end_ w
                 = (Returned conflicts,
                    with_trace
                      (fun t => t ++ [ProviderEventsList (conflict_query startTime endTime)])
                      w1)).
  { unfold checkConflict, googleService, bind at 1. rewrite Hg, Hds, Hde.
    unfold events_list, bind, log, lift. simpl.
    fold (conflict_query startTime endTime). rewrite Hl.
    fold events. rewrite Hfold. reflexivity. }
  exists conflicts. eexists. exists (0 <? length conflicts)%nat.
  split; [exact Hrun|]. split; [reflexivity|].
  split.
  { intro e. unfold selected. rewrite filter_In, overlapsb_spec. reflexivity. }
  split; [exact HF|].
  split.
  - unfold checkConflictController. rewrite Hbs, Hbe. simpl.
    destruct start; [contradiction|]. destruct end_; [contradiction|]. simpl.
    unfold try_catch, bind. rewrite Hrun. reflexivity.
  - destruct conflicts; simpl; split; intro H; try discriminate; try reflexivity.
    contradiction.
Qed.

(** What the caller of the API sees when the user is not connected: the
    controller only recognises the message "Google client not
    initialized", which [getGoogleService] never throws, and answers with
    its generic message. *)
Lemma checkConflictController_not_connected req userId start end_ w :
  principal req = Some userId ->
  find (matches userId "google") (db w) = None ->
  nonempty_string (obj_get "start_time" (body req)) = Some start ->
  nonempty_string (obj_get "end_time" (body req)) = Some end_ ->
  checkConflictController req w
  = (Returned {| status := 400;
                 json := MessageJson false "Unable to check for conflicts" |},
     with_trace (fun t => t ++ [StoreFindOne userId "google"]) w).
Proof.
  intros Hp Hf Hs He. unfold checkConflictController. rewrite Hs, He.
  unfold try_catch, bind at 1, checkConflict, bind at 1, googleService.
  rewrite (getGoogleService_not_connected req userId w Hp Hf). reflexivity.
Qed.

(** *** Event creation *)

Lemma obj_lookup_app k (a b : JsObj) :
  obj_lookup k (a ++ b)
  = match obj_lookup k b with Some v => Some v | None => obj_lookup k a end.
Proof.
  induction a as [|[k' v] a IH]; simpl.
  - destruct (obj_lookup k b); reflexivity.
  - rewrite IH. destruct (obj_lookup k b); reflexivity.
Qed.

Lemma obj_lookup_rest keys k (o : JsObj) :
  obj_lookup k (obj_rest keys o)
  = if existsb (String.eqb k) keys then None else obj_lookup k o.
Proof.
  unfold obj_rest. induction o as [|[k' v] o IH]; simpl.
  - destruct (existsb _ keys); reflexivity.
  - destruct (String.eqb k' k) eqn:E.
    + apply String.eqb_eq in E. subst k'.
      destruct (existsb (String.eqb k) keys) eqn:Ek; simpl.
      * exact IH.
      * rewrite IH. now rewrite String.eqb_refl.
    + destruct (negb (existsb (String.eqb k') keys)); simpl.
      * rewrite IH, E. destruct (existsb (String.eqb k) keys); [reflexivity|].
        destruct (obj_lookup k o); reflexivity.
      * rewrite IH. destruct (existsb (String.eqb k) keys); [reflexivity|].
        destruct (obj_lookup k o); reflexivity.
Qed.

Lemma obj_get_app k (a b : JsObj) :
  obj_get k (a ++ b)
  = match obj_lookup k b with Some v => v | None => obj_get k a end.
Proof.
  unfold obj_get. rewrite obj_lookup_app. destruct (obj_lookup k b); reflexivity.
Qed.

Lemma obj_get_snoc_same k v (o : JsObj) : obj_get k (o ++ [(k, v)]) = v.
Proof.
  rewrite obj_get_app. simpl. now rewrite String.eqb_refl.
Qed.

Lemma obj_get_snoc_other k k' v (o : JsObj) :
  String.eqb k' k = false -> obj_get k (o ++ [(k', v)]) = obj_get k o.
Proof.
  intro H. rewrite obj_get_app. simpl. now rewrite H.
Qed.

(** In the object literal of [createEvent], [location] is the property
    written by the literal (the rest properties cannot hold one), and
    [conferenceData] is the caller's, if any. *)
Lemma initial_requestBody_location data :
  obj_get "location" (initial_requestBody data)
  = match obj_get "location" data with
    | JsString l => if negb (is_google_meet (JsString l))
                    then JsString l else JsUndefined
    | _ => JsUndefined
    end.
Proof.
  unfold initial_requestBody. rewrite obj_get_app, obj_lookup_rest. simpl.
  unfold obj_get at 1. simpl. destruct (obj_get "location" data); reflexivity.
Qed.

Lemma initial_requestBody_conferenceData data :
  obj_get "conferenceData" (initial_requestBody data)
  = obj_get "conferenceData" data.
Proof.
  unfold initial_requestBody. rewrite obj_get_app, obj_lookup_rest. simpl.
  unfold obj_get. simpl. destruct (obj_lookup "conferenceData" data); reflexivity.
Qed.

Lemma events_insert_run client params w :
  bind (events_insert client params) (fun res => ret res) w
  = (calendar_events_insert client params,
     with_trace (fun t => t ++ [ProviderEventsInsert params]) w).
Proof.
  unfold events_insert, bind, log, lift, ret. simpl.
  destruct (calendar_events_insert client params); reflexivity.
Qed.

(** C10.  Once the client is obtained, [createEvent] on event data whose
    [location] is a string makes one [events.insert] call on the primary
    calendar.  When the location, trimmed and lowercased, is
    "google meet", the request body has no location, its
    [conferenceData] is exactly one [createRequest] whose
    [conferenceSolutionKey] has the type "hangoutsMeet" and whose
    [requestId] is "meet-", the clock reading, "-" and the random draw,
    and [conferenceDataVersion] is 1.  For every other location string the
    body's location is the given string and the function adds no
    conference data: [conferenceData] is what the caller's event data held
    (undefined when it held none, and then [conferenceDataVersion] is
    undefined too). *)
Theorem C10_google_meet_marker (req : AuthRequest) (eventData : option JsObj)
    (location : string) (w w1 : World) (client : OAuth2Client) :
  let data := match eventData with Some o => o | None => [] end in
  getGoogleService req w = (Returned client, w1) ->
  obj_get "location" data = JsString location ->
  exists params w',
    createEvent req eventData w = (calendar_events_insert client params, w')
    /\ trace w' = trace w1 ++ [ProviderEventsInsert params]
    /\ insert_calendarId params = "primary"
    /\ (toLowerCase (trim location) = "google meet" ->
        obj_get "location" (requestBody params) = JsUndefined
        /\ obj_get "conferenceData" (requestBody params)
           = JsObject
               [ ("createRequest",
                  JsObject
                    [ ("requestId",
                       JsString ("meet-" ++ Number_toString (clock (ticks w1))
                                 ++ "-"
                                 ++ Number_toString (random_10000 (draws w1)))%string);
                      ("conferenceSolutionKey",
                       JsObject [("type", JsString "hangoutsMeet")]) ]) ]
        /\ conferenceDataVersion params = Some 1)
    /\ (toLowerCase (trim location) <> "google meet" ->
        obj_get "location" (requestBody params) = JsString location
        /\ obj_get "conferenceData" (requestBody params)
           = obj_get "conferenceData" data
        /\ conferenceDataVersion params
           = if is_undefined (obj_get "conferenceData" data) then None else Some 1).
Proof.
  intros data Hg Hloc.
  unfold createEvent, googleService, bind at 1. rewrite Hg.
  fold data. rewrite Hloc.
  pose proof (initial_requestBody_location data) as Hl. rewrite Hloc in Hl.
  pose proof (initial_requestBody_conferenceData data) as Hc.
  unfold is_google_meet in Hl |- *.
  destruct (String.eqb (toLowerCase (trim location)) "google meet") eqn:E.
  - apply String.eqb_eq in E.
    unfold bind at 1. unfold bind at 1. unfold Date_now at 1.
    unfold bind at 1. unfold Math_random_10000 at 1. unfold ret at 1.
    rewrite events_insert_run.
    eexists; eexists. split; [reflexivity|].
    split; [reflexivity|]. split; [reflexivity|].
    split; [|intro H; contradiction].
    intros _. unfold insert_request. cbn [requestBody conferenceDataVersion].
    rewrite obj_get_snoc_other by reflexivity.
    rewrite obj_get_snoc_same. rewrite Hl. repeat split.
  - apply String.eqb_neq in E.
    unfold bind at 1. unfold ret at 1.
    rewrite events_insert_run.
    eexists; eexists. split; [reflexivity|].
    split; [reflexivity|]. split; [reflexivity|].
    split; [intro H; contradiction|].
    intros _. unfold insert_request. cbn [requestBody conferenceDataVersion].
    rewrite Hl, Hc. repeat split.
    destruct (is_undefined (obj_get "conferenceData" data)); reflexivity.
Qed.

(** *** More on the refresh protocol *)

Lemma ensureFreshAccessToken_transient c r w doc err :
  nth_error (docs w) r = Some doc ->
  needs_refresh (exp_of (Integration.expires_at doc)) (clock (ticks w)) = true ->
  provider_refresh (credentials c) = Rejected err ->
  invalid_grant err = false ->
  ensureFreshAccessToken c r w
  = (Thrown err,
     with_trace (fun t => t ++ [ProviderGetAccessToken (credentials c)])
       (with_ticks S w)).
Proof.
  intros Hd Hn Hp Hg.
  unfold ensureFreshAccessToken, bind, Date_now, deref. simpl.
  rewrite Hd, Hn. unfold try_catch, getAccessToken, bind. simpl.
  rewrite Hp. unfold throw at 1. rewrite Hg. reflexivity.
Qed.

(** Every run of [getGoogleService] has one of four shapes: nothing; the
    lookup; the lookup and the token call; the lookup, the token call and
    one write, applied (the one it awaits) or only issued (the one of the
    listener). *)
Lemma getGoogleService_effects req w :
  exists added,
    trace (snd (getGoogleService req w)) = trace w ++ added
    /\ ((added = [] /\ db (snd (getGoogleService req w)) = db w)
        \/ (exists uid, added = [StoreFindOne uid "google"]
                        /\ db (snd (getGoogleService req w)) = db w)
        \/ (exists uid c, added = [StoreFindOne uid "google"; ProviderGetAccessToken c]
                          /\ db (snd (getGoogleService req w)) = db w)
        \/ (exists uid c id u,
              added = [StoreFindOne uid "google"; ProviderGetAccessToken c;
                       StoreUpdateOne id u]
              /\ (db (snd (getGoogleService req w)) = set_first id u (db w)
                  \/ db (snd (getGoogleService req w)) = db w))).
Proof.
  destruct (principal req) as [uid|] eqn:Hp.
  2:{ exists []. rewrite app_nil_r. split; [|left; split; [reflexivity|]];
      unfold principal in Hp; unfold getGoogleService;
      destruct (user req) as [u|]; try reflexivity;
      destruct (truthy_Id (_id u)); try discriminate; reflexivity. }
  destruct (find (matches uid "google") (db w)) as [d|] eqn:Hf.
  2:{ rewrite (getGoogleService_not_connected req uid w Hp Hf).
      eexists. split; [reflexivity|]. right; left. eauto. }
  rewrite (getGoogleService_found req uid w d Hp Hf).
  assert (Hd : nth_error (docs (loaded uid d w)) (length (docs w)) = Some d)
    by (simpl; apply nth_error_snoc).
  destruct (needs_refresh (exp_of (Integration.expires_at d)) (clock (ticks w)))
    eqn:Hn.
  2:{ rewrite (ensureFreshAccessToken_fresh _ _ _ d Hd Hn).
      eexists. split; [reflexivity|]. right; left. eauto. }
  destruct (provider_refresh (credentials (configured_client d)))
    as [emitted c'|err] eqn:Hr.
  - unfold listening_client.
    rewrite (ensureFreshAccessToken_resolved _ _ d _ emitted c');
      [ | exact Hd | exact Hn | exact Hr ].
    assert (Hquiet :
      exists added,
        trace (with_trace
                 (fun t => t ++ [ProviderGetAccessToken (credentials (configured_client d))])
                 (with_ticks S (loaded uid d w))) = trace w ++ added
        /\ exists uid0 c, added = [StoreFindOne uid0 "google"; ProviderGetAccessToken c]).
    { eexists. simpl. rewrite <- app_assoc. split; [reflexivity|].
      do 2 eexists. reflexivity. }
    destruct Hquiet as (added & Ht & u0 & c0 & Ha).
    assert (Hq : exists added,
              trace (with_trace
                 (fun t => t ++ [ProviderGetAccessToken (credentials (configured_client d))])
                 (with_ticks S (loaded uid d w))) = trace w ++ added
              /\ ((added = [] /\ db w = db w)
                  \/ (exists uid, added = [StoreFindOne uid "google"] /\ db w = db w)
                  \/ (exists uid c, added = [StoreFindOne uid "google";
                                              ProviderGetAccessToken c]
                                    /\ db w = db w)
                  \/ (exists uid c id u,
                        added = [StoreFindOne uid "google"; ProviderGetAccessToken c;
                                 StoreUpdateOne id u]
                        /\ (db w = set_first id u (db w) \/ db w = db w)))).
    { exists added. split; [exact Ht|]. right; right; left.
      exists u0, c0. split; [exact Ha|reflexivity]. }
    destruct emitted as [tokens|]; [|exact Hq].
    destruct (listener_updates d tokens) as [u|e]; [|exact Hq].
    destruct (0 <? Updates.keys_length u)%nat; [|exact Hq].
    eexists. simpl. rewrite <- !app_assoc. split; [reflexivity|].
    right; right; right. do 4 eexists. split; [reflexivity|now right].
  - destruct (invalid_grant err) eqn:Hg.
    + rewrite (ensureFreshAccessToken_revoked (listening_client d (length (docs w)))
                 _ _ d err Hd Hn Hr Hg).
      eexists. simpl. rewrite <- !app_assoc. split; [reflexivity|].
      right; right; right. do 4 eexists. split; [reflexivity|now left].
    + rewrite (ensureFreshAccessToken_transient (listening_client d (length (docs w)))
                 _ _ d err Hd Hn Hr Hg).
      eexists. simpl. rewrite <- !app_assoc. split; [reflexivity|].
      right; right; left. do 2 eexists. split; reflexivity.
Qed.

(** X1.  A refresh the provider rejects with anything but
    [invalid_grant] (a network error, a 5xx) is rethrown as it is and the
    store is not written: after the lookup and the one token call the
    collection is what it was, and there is no retry. *)
Theorem X1_transient_failure_no_write (req : AuthRequest) (userId : Id)
    (w : World) (d : Integration.t) (err : JsError) :
  principal req = Some userId ->
  find (matches userId "google") (db w) = Some d ->
  needs_refresh (exp_of (Integration.expires_at d)) (clock (ticks w)) = true ->
  provider_refresh (credentials (configured_client d)) = Rejected err ->
  response_data_error err <> Some "invalid_grant" ->
  exists w',
    getGoogleService req w = (Thrown err, w')
    /\ db w' = db w
    /\ trace w' = trace w ++ [StoreFindOne userId "google";
                              ProviderGetAccessToken (credentials (configured_client d))].
Proof.
  intros Hp Hf Hn Hr Hg.
  rewrite (getGoogleService_found req userId w d Hp Hf).
  rewrite (ensureFreshAccessToken_transient (listening_client d (length (docs w)))
             _ _ d err).
  - eexists. split; [reflexivity|]. simpl. split; [reflexivity|].
    now rewrite <- app_assoc.
  - simpl. apply nth_error_snoc.
  - exact Hn.
  - exact Hr.
  - unfold invalid_grant.
    destruct (opt_string_eqb (response_data_error err) (Some "invalid_grant")) eqn:E;
      [|reflexivity].
    apply opt_string_eqb_eq in E. contradiction.
Qed.

Lemma count_app (p : Access -> bool) (t added : list Access) :
  length (filter p (t ++ added)) = (length (filter p t) + length (filter p added))%nat.
Proof. now rewrite filter_app, length_app. Qed.

(** X2.  Whatever the request, the world and the provider do, one call of
    [getGoogleService] looks the integration up at most once, calls the
    token endpoint at most once and writes the store at most once, and it
    writes only when it has called the token endpoint. *)
Theorem X2_at_most_one_refresh_and_write (req : AuthRequest) (w : World) :
  let w' := snd (getGoogleService req w) in
  (store_lookups w' <= store_lookups w + 1)%nat
  /\ (refresh_attempts w' <= refresh_attempts w + 1)%nat
  /\ (store_writes w' <= store_writes w + 1)%nat
  /\ (store_writes w' <> store_writes w ->
      refresh_attempts w' = S (refresh_attempts w)).
Proof.
  intro w'. unfold w', store_lookups, refresh_attempts, store_writes.
  destruct (getGoogleService_effects req w) as (added & -> & H).
  rewrite !count_app.
  destruct H as [[-> _]|[(u & -> & _)|[(u & c & -> & _)|(u & c & i & s & -> & _)]]];
    simpl; repeat split; try lia; intro H; lia.
Qed.

Lemma set_first_identity id u l :
  map identity (set_first id u l) = map identity l.
Proof.
  induction l as [|d l IH]; simpl; [reflexivity|].
  destruct (Id_eqb (Integration._id d) id); simpl; [reflexivity|now rewrite IH].
Qed.

(** X3.  [getGoogleService] never creates, deletes, reorders or re-owns
    an integration: whatever happens (fresh, refreshed, revoked, failed,
    unauthenticated), the collection afterwards holds the same documents
    in the same order as far as [_id], [user_id], [name] and [created_at]
    go. *)
Theorem X3_store_identities_kept (req : AuthRequest) (w : World) :
  map identity (db (snd (getGoogleService req w))) = map identity (db w).
Proof.
  destruct (getGoogleService_effects req w) as (added & _ & H).
  destruct H as [[_ ->]|[(u & _ & ->)|[(u & c & _ & ->)
                                       |(u & c & i & s & _ & [-> | ->])]]];
    try reflexivity.
  apply set_first_identity.
Qed.

Lemma changed_settles tok stored :
  changed tok (match changed tok stored with Some s => Some s | None => stored end)
  = None.
Proof.
  unfold changed.
  destruct (truthy_opt_string tok && negb (opt_string_eqb tok stored)) eqn:E.
  - destruct tok as [a|]; [|discriminate E].
    now rewrite opt_string_eqb_refl, andb_false_r.
  - now rewrite E.
Qed.

Lemma changed_expiry_settles expiry_date stored :
  changed_expiry expiry_date
    (match changed_expiry expiry_date stored with Some e => Some e | None => stored end)
  = None.
Proof.
  unfold changed_expiry. destruct expiry_date as [e|]; [|reflexivity].
  destruct (truthy_number e
            && negb (opt_string_eqb (Some (toISOString e))
                                    (option_map toISOString stored))) eqn:E.
  - simpl. now rewrite String.eqb_refl, andb_false_r.
  - now rewrite E.
Qed.

Lemma nth_error_list_update {A} (l : list A) r f x :
  nth_error l r = Some x -> nth_error (list_update l r f) r = Some (f x).
Proof.
  revert r. induction l as [|y l IH]; intros [|r]; simpl; try discriminate.
  - now intros [= ->].
  - apply IH.
Qed.

(** X4.  The ["tokens"] listener settles: once it has handled an event
    (and so brought the in-memory document up to date), handling the same
    event again writes nothing and reads no clock. *)
Theorem X4_listener_settles (integration : DocRef) (tokens : Credentials.t)
    (w : World) (doc : Integration.t) :
  nth_error (docs w) integration = Some doc ->
  fst (tokens_listener integration tokens w) = Returned tt ->
  let w1 := snd (tokens_listener integration tokens w) in
  tokens_listener integration tokens w1 = (Returned tt, w1).
Proof.
  intros Hd Hok w1. unfold w1. clear w1. revert Hok.
  rewrite (tokens_listener_run _ tokens w doc Hd).
  rewrite listener_updates_char.
  destruct (expiry_out_of_range (Credentials.expiry_date tokens)) eqn:Hx;
    [discriminate|].
  set (u := Updates.mk _ _ _ None).
  destruct (0 <? Updates.keys_length u)%nat eqn:Hk; intros _; simpl snd.
  - rewrite (tokens_listener_run _ tokens _
               (Updates.assign doc (stamped u (clock (ticks w))))).
    + rewrite listener_updates_char, Hx. simpl.
      now rewrite !changed_settles, changed_expiry_settles.
    + simpl.
      exact (nth_error_list_update _ _
               (fun d => Updates.assign d (stamped u (clock (ticks w)))) _ Hd).
  - rewrite (tokens_listener_run _ tokens w doc Hd).
    rewrite listener_updates_char, Hx. fold u. now rewrite Hk.
Qed.

(** X5.  When the ["tokens"] event of a successful refresh carries an
    [expiry_date] outside the range of a [Date], the listener throws on
    [toISOString] before it writes, and nothing awaits the listener:
    [getGoogleService] still returns the refreshed client, but nothing of
    the event is persisted, whatever access or refresh token it carried,
    and the in-memory document is as loaded. *)
Theorem X5_out_of_range_expiry_drops_event (req : AuthRequest) (userId : Id)
    (w : World) (d : Integration.t) (tokens credentials' : Credentials.t) (e : Z) :
  principal req = Some userId ->
  find (matches userId "google") (db w) = Some d ->
  needs_refresh (exp_of (Integration.expires_at d)) (clock (ticks w)) = true ->
  provider_refresh (credentials (configured_client d))
  = Resolved (Some tokens) credentials' ->
  Credentials.expiry_date tokens = Some e ->
  8640000000000000 < Z.abs e ->
  exists client w',
    getGoogleService req w = (Returned client, w')
    /\ credentials client = credentials'
    /\ db w' = db w
    /\ trace w' = trace w ++ [StoreFindOne userId "google";
                              ProviderGetAccessToken (credentials (configured_client d))]
    /\ nth_error (docs w') (length (docs w)) = Some d.
Proof.
  intros Hp Hf Hn Hr He Hrange.
  rewrite (getGoogleService_found req userId w d Hp Hf).
  unfold listening_client.
  rewrite (ensureFreshAccessToken_resolved _ _ d _ (Some tokens) credentials');
    [ | simpl; apply nth_error_snoc | exact Hn | exact Hr ].
  rewrite listener_updates_char, He.
  assert (Hx : expiry_out_of_range (Some e) = true).
  { unfold expiry_out_of_range, truthy_number, Date_valid.
    apply andb_true_iff. split; apply negb_true_iff.
    - apply Z.eqb_neq. lia.
    - apply Z.leb_gt. exact Hrange. }
  rewrite Hx.
  eexists; eexists. split; [reflexivity|]. simpl.
  split; [reflexivity|]. split; [reflexivity|].
  split; [now rewrite <- app_assoc|apply nth_error_snoc].
Qed.

Lemma matches_assign uid nm d u :
  matches uid nm (Updates.assign d u) = matches uid nm d.
Proof. reflexivity. Qed.

Lemma find_some_in {A} (p : A -> bool) l x : find p l = Some x -> In x l.
Proof.
  induction l as [|y l IH]; simpl; [discriminate|].
  destruct (p y); [intros [= ->]; now left|intro H; right; auto].
Qed.

(** With unique [_id]s, the write of the listener lands on the document
    the lookup found. *)
Lemma find_set_first_unique uid nm l d u :
  unique_ids l ->
  find (matches uid nm) l = Some d ->
  find (matches uid nm) (set_first (Integration._id d) u l)
  = Some (Updates.assign d u).
Proof.
  unfold unique_ids. induction l as [|x l IH]; simpl; [discriminate|].
  intros Hnd Hf. inversion Hnd as [|? ? Hnotin Hnd']; subst.
  destruct (matches uid nm x) eqn:Hm.
  - injection Hf as <-. unfold Id_eqb at 1. rewrite String.eqb_refl. simpl.
    now rewrite matches_assign, Hm.
  - assert (Hne : Id_eqb (Integration._id x) (Integration._id d) = false).
    { unfold Id_eqb. apply String.eqb_neq. intro Heq. apply Hnotin.
      rewrite Heq.
      apply (in_map (fun d0 => Id_toString (Integration._id d0))).
      exact (find_some_in _ _ _ Hf). }
    rewrite Hne. simpl. rewrite Hm. now apply IH.
Qed.

(** X6.  Refresh, then fresh.  With unique [_id]s, when a refresh succeeds
    and its event carries a valid expiry that prints differently from the
    stored one, [getGoogleService] returns with the listener's write
    issued and the stored record still as it was.  Once the store has
    applied that write, the user's stored integration has the new expiry;
    a second [getGoogleService] after that, at a clock reading more than
    [TOKEN_SKEW_MS] before it, is configured from the updated record and
    neither calls the token endpoint nor writes the store. *)
Theorem X6_refresh_then_fresh (req : AuthRequest) (userId : Id) (w : World)
    (d : Integration.t) (tokens credentials' : Credentials.t) (e : Z) :
  unique_ids (db w) ->
  principal req = Some userId ->
  find (matches userId "google") (db w) = Some d ->
  needs_refresh (exp_of (Integration.expires_at d)) (clock (ticks w)) = true ->
  provider_refresh (credentials (configured_client d))
  = Resolved (Some tokens) credentials' ->
  Credentials.expiry_date tokens = Some e ->
  Z.abs e <= 8640000000000000 ->
  Some (toISOString e) <> option_map toISOString (Integration.expires_at d) ->
  0 <= clock (S (S (ticks w))) ->
  clock (S (S (ticks w))) + TOKEN_SKEW_MS < e ->
  exists client w1 u d1 client2 w2,
    getGoogleService req w = (Returned client, w1)
    /\ nth_error (pending w1) (length (pending w))
       = Some {| pw_id := Integration._id d; pw_set := u;
                 pw_doc := length (docs w) |}
    /\ db w1 = db w
    /\ let settled := settle (length (pending w)) (Returned tt) w1 in
       find (matches userId "google") (db settled) = Some d1
       /\ Integration.expires_at d1 = Some e
       /\ Integration.access_token d1
          = match changed (Credentials.access_token tokens)
                          (Integration.access_token d)
            with Some a => Some a | None => Integration.access_token d end
       /\ getGoogleService req settled = (Returned client2, w2)
       /\ credentials client2 = credentials (configured_client d1)
       /\ refresh_attempts w2 = refresh_attempts w1
       /\ store_writes w2 = store_writes w1
       /\ db w2 = db settled.
Proof.
  intros Hu Hp Hf Hn Hr He Hvalid Hiso H0 Hfresh.
  assert (Hnz : e <> 0) by (unfold TOKEN_SKEW_MS in Hfresh; lia).
  rewrite (getGoogleService_found req userId w d Hp Hf).
  unfold listening_client.
  rewrite (ensureFreshAccessToken_resolved _ _ d _ (Some tokens) credentials');
    [ | simpl; apply nth_error_snoc | exact Hn | exact Hr ].
  rewrite listener_updates_char, He.
  assert (Hx : expiry_out_of_range (Some e) = false).
  { unfold expiry_out_of_range, Date_valid. apply andb_false_iff. right.
    apply negb_false_iff, Z.leb_le. exact Hvalid. }
  assert (Hce : changed_expiry (Some e) (Integration.expires_at d) = Some e).
  { apply changed_expiry_iff. auto. }
  rewrite Hx, Hce.
  set (u0 := Updates.mk _ _ (Some e) None).
  assert (Hk : (0 <? Updates.keys_length u0)%nat = true).
  { unfold u0, Updates.keys_length. simpl. apply Nat.ltb_lt. lia. }
  rewrite Hk.
  set (u := stamped u0 _).
  set (w0 := with_trace _ (with_ticks S (loaded userId d w))).
  set (w1 := issued _ d u w0).
  set (settled := written (length (docs w)) d u w0).
  assert (Hs : settle (length (pending w)) (Returned tt) w1 = settled).
  { change (length (pending w)) with (length (pending w0)).
    unfold w1. now rewrite settle_issued. }
  assert (Hdb1 : db settled = set_first (Integration._id d) u (db w)) by reflexivity.
  assert (Hf1 : find (matches userId "google") (db settled)
                = Some (Updates.assign d u)).
  { rewrite Hdb1. now apply find_set_first_unique. }
  exists {| credentials := credentials'; tokens_listeners := [length (docs w)] |}.
  exists w1, u, (Updates.assign d u).
  cbv zeta. rewrite Hs.
  rewrite (getGoogleService_found req userId settled _ Hp Hf1).
  rewrite (ensureFreshAccessToken_fresh _ _ _ (Updates.assign d u)).
  - eexists; eexists. split; [reflexivity|].
    split; [unfold w1, issued; simpl; apply nth_error_snoc|].
    split; [reflexivity|]. split; [exact Hf1|].
    split; [reflexivity|]. split; [reflexivity|]. split; [reflexivity|].
    split; [reflexivity|].
    unfold refresh_attempts, store_writes. simpl trace.
    rewrite !count_app. simpl. split; [lia|]. split; [lia|reflexivity].
  - simpl. apply nth_error_snoc.
  - exact (fresh_needs_no_refresh e (clock (S (S (ticks w)))) H0 Hfresh).
Qed.

(** *** Requests without a principal, and the admin gate *)

Lemma getGoogleService_unauthenticated req w :
  principal req = None ->
  getGoogleService req w = (Thrown (Error "User not authenticated"), w).
Proof.
  unfold principal, getGoogleService. destruct (user req) as [u|]; [|reflexivity].
  destruct (truthy_Id (_id u)); [discriminate|reflexivity].
Qed.

(** X7.  A request that carries no user, or a user whose [_id] is falsy,
    is turned away by both gates and by [getGoogleService] with
    "User not authenticated", whatever resource is asked for, and
    [getGoogleService] then leaves the world untouched: no lookup, no
    provider call, no clock reading. *)
Theorem X7_unauthenticated_is_rejected (req : AuthRequest)
    (resourceUserId : string) (w : World) :
  principal req = None ->
  authorizeUserAccess req resourceUserId = Thrown (Error "User not authenticated")
  /\ authorizeAdminAccess req = Thrown (Error "User not authenticated")
  /\ getGoogleService req w = (Thrown (Error "User not authenticated"), w).
Proof.
  intro Hp. split; [|split].
  - unfold principal in Hp. unfold authorizeUserAccess.
    destruct (user req) as [u|]; [|reflexivity].
    destruct (truthy_Id (_id u)); [discriminate|reflexivity].
  - unfold principal in Hp. unfold authorizeAdminAccess.
    destruct (user req) as [u|]; [|reflexivity].
    destruct (truthy_Id (_id u)); [discriminate|reflexivity].
  - now apply getGoogleService_unauthenticated.
Qed.

(** X8.  The admin gate checks no role: it admits every authenticated
    principal, also one that [authorizeUserAccess] turns away from the
    resource of another user. *)
Theorem X8_admin_gate_admits_everyone (req : AuthRequest) (userA : Id)
    (userB : string) :
  principal req = Some userA ->
  authorizeAdminAccess req = Returned true
  /\ (Id_toString userA <> userB ->
      authorizeUserAccess req userB <> Returned true).
Proof.
  intro Hp. destruct (principal_inv _ _ Hp) as (u & Hu & <- & Ht).
  split; [unfold authorizeAdminAccess; now rewrite Hu, Ht|]. intro Hne.
  unfold authorizeUserAccess. rewrite Hu, Ht. simpl.
  rewrite (string_eqb_false _ _ Hne). discriminate.
Qed.

(** *** Conflict check on dates that are no dates *)

(** X9.  [checkConflict] obtains the client first and looks at the dates
    afterwards: when [start] or [end] is no valid date it throws a
    [RangeError] without calling [events.list], but only after the lookup
    (and any refresh) of [getGoogleService] has happened; the controller
    turns this into its 400 answer. *)
Theorem X9_invalid_dates_after_client (req : AuthRequest) (start end_ : string)
    (w w1 : World) (client : OAuth2Client) :
  obj_get "start_time" (body req) = JsString start ->
  obj_get "end_time" (body req) = JsString end_ ->
  start <> EmptyString -> end_ <> EmptyString ->
  getGoogleService req w = (Returned client, w1) ->
  new_Date_of_string start = None \/ new_Date_of_string end_ = None ->
  checkConflict req start end_ w = (Thrown (RangeError "Invalid time value"), w1)
  /\ checkConflictController req w
     = (Returned {| status := 400;
                    json := MessageJson false "Unable to check for conflicts" |}, w1).
Proof.
  intros Hbs Hbe Hs He Hg Hbad.
  assert (Hrun : checkConflict req start end_ w
                 = (Thrown (RangeError "Invalid time value"), w1)).
  { unfold checkConflict, googleService, bind at 1. rewrite Hg.
    destruct Hbad as [-> | ->]; [reflexivity|].
    destruct (new_Date_of_string start); reflexivity. }
  split; [exact Hrun|].
  unfold checkConflictController. rewrite Hbs, Hbe. simpl.
  destruct start; [contradiction|]. destruct end_; [contradiction|]. simpl.
  unfold try_catch, bind. rewrite Hrun. reflexivity.
Qed.

(** *** More on event creation *)

Lemma createEvent_run req eventData w w1 client :
  getGoogleService req w = (Returned client, w1) ->
  let data := match eventData with Some o => o | None => [] end in
  let body := created_requestBody data (clock (ticks w1)) (random_10000 (draws w1)) in
  createEvent req eventData w
  = (calendar_events_insert client (insert_request body), inserted data body w1).
Proof.
  intros Hg data body. unfold body, created_requestBody, inserted.
  unfold createEvent, googleService, bind at 1. rewrite Hg.
  unfold data. clear body data.
  destruct eventData as [data|]; cbv beta iota zeta;
  [ destruct (is_google_meet (obj_get "location" data))
  | destruct (is_google_meet (obj_get "location" [])) ];
    unfold events_insert, Date_now, Math_random_10000, log, lift, ret, bind;
    cbn [draws with_ticks];
    match goal with
    | |- context [calendar_events_insert client ?p] =>
        destruct (calendar_events_insert client p); reflexivity
    end.
Qed.

Lemma created_requestBody_forward data now rnd :
  (forall k v,
      existsb (String.eqb k) destructured = false ->
      obj_lookup k data = Some v ->
      k <> "conferenceData" \/ is_google_meet (obj_get "location" data) = false ->
      obj_get k (created_requestBody data now rnd) = v)
  /\ (forall k, In k ["start_time"; "end_time"; "title"; "participants"] ->
                obj_get k (created_requestBody data now rnd) = JsUndefined).
Proof.
  assert (Hinit : forall k v,
             existsb (String.eqb k) destructured = false ->
             obj_lookup k data = Some v ->
             obj_get k (initial_requestBody data) = v).
  { intros k v Hk Hv. unfold initial_requestBody.
    rewrite obj_get_app, obj_lookup_rest, Hk, Hv. reflexivity. }
  assert (Hnever : forall k,
             In k ["start_time"; "end_time"; "title"; "participants"] ->
             obj_get k (initial_requestBody data) = JsUndefined).
  { intros k Hin. unfold initial_requestBody.
    rewrite obj_get_app, obj_lookup_rest.
    simpl in Hin.
    destruct Hin as [<-|[<-|[<-|[<-|[]]]]]; reflexivity. }
  unfold created_requestBody.
  destruct (is_google_meet (obj_get "location" data)) eqn:Em; split.
  - intros k v Hk Hv [Hne|Hf]; [|discriminate].
    rewrite obj_get_snoc_other; [now apply Hinit|].
    apply String.eqb_neq. congruence.
  - intros k Hin. rewrite obj_get_snoc_other; [now apply Hnever|].
    simpl in Hin. destruct Hin as [<-|[<-|[<-|[<-|[]]]]]; reflexivity.
  - intros k v Hk Hv _. now apply Hinit.
  - exact Hnever.
Qed.

(** X10.  [createEvent] forwards every property of the event data that is
    not one of the seven it destructures, and such a property wins over
    the field of the same name the function computes (a [summary] in the
    event data replaces the title); only [conferenceData] is overridden,
    when the location is the Google Meet marker.  The destructured names
    that are not body fields ([start_time], [end_time], [title],
    [participants]) never reach the request body. *)
Theorem X10_extra_event_data_forwarded (req : AuthRequest)
    (eventData : option JsObj) (w w1 : World) (client : OAuth2Client) :
  let data := match eventData with Some o => o | None => [] end in
  getGoogleService req w = (Returned client, w1) ->
  exists params w',
    createEvent req eventData w = (calendar_events_insert client params, w')
    /\ (forall k v,
          existsb (String.eqb k) destructured = false ->
          obj_lookup k data = Some v ->
          k <> "conferenceData" \/ is_google_meet (obj_get "location" data) = false ->
          obj_get k (requestBody params) = v)
    /\ (forall k, In k ["start_time"; "end_time"; "title"; "participants"] ->
                  obj_get k (requestBody params) = JsUndefined).
Proof.
  intros data Hg.
  rewrite (createEvent_run req eventData w w1 client Hg).
  eexists; eexists. split; [reflexivity|].
  exact (created_requestBody_forward data (clock (ticks w1))
           (random_10000 (draws w1))).
Qed.

Lemma nonempty_string_inv v s :
  nonempty_string v = Some s -> v = JsString s /\ truthy_string s = true.
Proof.
  destruct v; simpl; try discriminate.
  destruct (truthy_string s0) eqn:E; [|discriminate].
  intros [= <-]. auto.
Qed.


Lemma parse_createEvent_times b p :
  parse_createEvent b = Some p ->
  truthy_string (ce_start_time p) = true /\ truthy_string (ce_end_time p) = true.
Proof.
  unfold parse_createEvent.
  destruct (nonempty_string (obj_get "start_time" b)) as [st|] eqn:Es; [|discriminate].
  destruct (nonempty_string (obj_get "end_time" b)) as [et|] eqn:Ee; [|discriminate].
  destruct (optional_string (obj_get "title" b)); [|discriminate].
  destruct (optional_string (obj_get "description" b)); [|discriminate].
  destruct (optional_emails (obj_get "participants" b)); [|discriminate].
  destruct (optional_string (obj_get "location" b)); [|discriminate].
  intros [= <-]. simpl.
  split; [exact (proj2 (nonempty_string_inv _ _ Es))
         |exact (proj2 (nonempty_string_inv _ _ Ee))].
Qed.

Lemma controller_insert_request p now rnd :
  truthy_string (ce_start_time p) = true ->
  truthy_string (ce_end_time p) = true ->
  insert_request (created_requestBody (createEvent_argument p) now rnd)
  = controller_insert p now rnd.
Proof.
  intros Hs He. destruct p as [st et ti de pa lo re]. simpl in Hs, He.
  unfold controller_insert, controller_requestBody, insert_request,
    created_requestBody, initial_requestBody, createEvent_argument.
  cbn -[is_google_meet meet_conferenceData]. rewrite Hs, He.
  destruct lo as [l|]; cbn -[is_google_meet meet_conferenceData].
  - destruct (is_google_meet (JsString l)); cbn -[meet_conferenceData];
      destruct pa as [pl|]; try rewrite map_map; reflexivity.
  - destruct pa as [pl|]; try rewrite map_map; reflexivity.
Qed.

(** X11.  Through [createEventController] the request body of
    [events.insert] has exactly the seven fields of the object literal,
    plus [conferenceData] for the Google Meet marker: [start] and [end]
    always carry the validated times, the attendees are the validated
    addresses in the order given, and nothing else of the HTTP body gets
    through.  The controller answers 200 with what the provider returned,
    or 400 with a message when the insert throws. *)
Theorem X11_createEventController_request (req : AuthRequest)
    (p : CreateEventData) (w w1 : World) (client : OAuth2Client) :
  parse_createEvent (body req) = Some p ->
  getGoogleService req w = (Returned client, w1) ->
  let params := controller_insert p (clock (ticks w1)) (random_10000 (draws w1)) in
  exists w',
    trace w' = trace w1 ++ [ProviderEventsInsert params]
    /\ createEventController req w
       = (Returned
            match calendar_events_insert client params with
            | Returned event =>
                {| api_status := 200;
                   api_json :=
                     CreatedJson true (obj_get "id" event) (obj_get "hangoutLink" event)
                       (chain_get (obj_get "start" event) "dateTime")
                       (chain_get (obj_get "end" event) "dateTime") |}
            | Thrown error =>
                {| api_status := 400;
                   api_json :=
                     FailureJson false
                       (failure_message error "Unable to create event") |}
            end, w').
Proof.
  intros Hparse Hg params.
  destruct (parse_createEvent_times _ _ Hparse) as [Hs He].
  unfold createEventController. rewrite Hparse.
  unfold try_catch, bind.
  rewrite (createEvent_run req (Some (createEvent_argument p)) w w1 client Hg).
  cbv zeta. unfold inserted.
  rewrite !(controller_insert_request p _ _ Hs He). fold params.
  eexists. split; [|destruct (calendar_events_insert client params); reflexivity].
  cbn [trace with_trace].
  destruct (is_google_meet _); reflexivity.
Qed.

(** *** The other controllers *)

Lemma rbind_inv {A B} (c : Request A) (k : A -> Request B) s b s' :
  rbind c k s = (Returned b, s') ->
  exists a s1, c s = (Returned a, s1) /\ k a s1 = (Returned b, s').
Proof.
  unfold rbind. destruct (c s) as [[a|e] s1]; [eauto|discriminate].
Qed.

Lemma rret_inv {A} (a b : A) s s' :
  rret a s = (Returned b, s') -> a = b /\ s = s'.
Proof. unfold rret. intros [= -> ->]. auto. Qed.

Lemma fetchEvent_run req eventId s client w1 :
  getGoogleService req (world s) = (Returned client, w1) ->
  fetchEvent req eventId s
  = (calendar_events_get client eventId, called (EventsGet eventId) w1 s).
Proof.
  intro Hg. unfold fetchEvent, rbind, in_world, googleService. rewrite Hg.
  unfold calendar_call, called, rret. simpl.
  destruct (calendar_events_get client eventId); reflexivity.
Qed.

Lemma editEvent_run req eventId updates s client w1 :
  getGoogleService req (world s) = (Returned client, w1) ->
  editEvent req eventId updates s
  = (calendar_events_patch client eventId updates,
     called (EventsPatch eventId updates) w1 s).
Proof.
  intro Hg. unfold editEvent, rbind, in_world, googleService. rewrite Hg.
  unfold calendar_call, called, rret. simpl.
  destruct (calendar_events_patch client eventId updates); reflexivity.
Qed.

(** A service operation fails as [getGoogleService] fails, before any
    calendar call. *)
Lemma service_fails_early {B} (k : OAuth2Client -> Request B) req s e w1 :
  getGoogleService req (world s) = (Thrown e, w1) ->
  rbind (in_world (googleService req)) k s
  = (Thrown e, {| world := w1; calendar_calls := calendar_calls s |}).
Proof.
  intro Hg. unfold rbind, in_world, googleService. now rewrite Hg.
Qed.

(** X12.  Whenever [editEventController] answers 200, the
    [updated_fields] it reports are determined by the validated changes
    alone, in this order: "title" for a non-empty title, "description" for
    a non-empty description, "meeting_link" when [add_meet_link] is true,
    "participants" when [add_participants] or [remove_participants] is
    present (even empty).  An empty title or description is silently
    ignored.  Every other answer is 400 with a message. *)
Theorem X12_edit_reports_fields (req : AuthRequest) (event_id : string)
    (changes : Changes) (s s' : Session) (resp : ApiResponse) :
  parse_editEvent (body req) = Some (event_id, changes) ->
  editEventController req s = (Returned resp, s') ->
  (api_status resp = 200
   /\ exists id meet_link,
        api_json resp = EditedJson true id (expected_fields changes) meet_link)
  \/ (api_status resp = 400
      /\ exists msg, api_json resp = EditFailureJson false msg).
Proof.
  intros Hparse Hrun. unfold editEventController in Hrun. rewrite Hparse in Hrun.
  unfold rtry in Hrun.
  match type of Hrun with
  | (match ?c s with _ => _ end) = _ => destruct (c s) as [[r|e] s1] eqn:Hin
  end.
  2:{ apply rret_inv in Hrun. destruct Hrun as [<- _]. right.
      split; [reflexivity|]. eexists. reflexivity. }
  injection Hrun as -> ->. left.
  unfold expected_fields.
  destruct (truthy_opt_string (ch_title changes));
  destruct (truthy_opt_string (ch_description changes));
  cbv beta iota zeta in Hin;
  apply rbind_inv in Hin; destruct Hin as (pu & s2 & Hmeet & Hin);
  destruct (ch_add_meet_link changes) as [[|]|];
  try (apply rbind_inv in Hmeet; destruct Hmeet as (now & s3 & _ & Hmeet));
  apply rret_inv in Hmeet; destruct Hmeet as [<- _];
  cbv beta iota zeta in Hin;
  apply rbind_inv in Hin; destruct Hin as (pu2 & s4 & Hpart & Hin);
  destruct (is_some (ch_add_participants changes)
            || is_some (ch_remove_participants changes))%bool;
  try (apply rbind_inv in Hpart; destruct Hpart as (ev & s5 & _ & Hpart);
       apply rbind_inv in Hpart; destruct Hpart as (att & s6 & _ & Hpart));
  apply rret_inv in Hpart; destruct Hpart as [<- _];
  cbv beta iota zeta in Hin;
  apply rbind_inv in Hin; destruct Hin as (updated & s7 & _ & Hin);
  apply rret_inv in Hin; destruct Hin as [<- _];
  (split; [reflexivity|]; do 2 eexists; reflexivity).
Qed.

Lemma fetchEvent_at req eventId w calls client w1 :
  getGoogleService req w = (Returned client, w1) ->
  fetchEvent req eventId {| world := w; calendar_calls := calls |}
  = (calendar_events_get client eventId,
     {| world := w1; calendar_calls := calls ++ [EventsGet eventId] |}).
Proof.
  intro Hg.
  exact (fetchEvent_run req eventId {| world := w; calendar_calls := calls |}
           client w1 Hg).
Qed.

Lemma editEvent_at req eventId updates w calls client w1 :
  getGoogleService req w = (Returned client, w1) ->
  editEvent req eventId updates {| world := w; calendar_calls := calls |}
  = (calendar_events_patch client eventId updates,
     {| world := w1; calendar_calls := calls ++ [EventsPatch eventId updates] |}).
Proof.
  intro Hg.
  exact (editEvent_run req eventId updates {| world := w; calendar_calls := calls |}
           client w1 Hg).
Qed.

Lemma rbind_run {A B} (c : Request A) (k : A -> Request B) s a s1 :
  c s = (Returned a, s1) -> rbind c k s = k a s1.
Proof. intro H. unfold rbind. now rewrite H. Qed.

Lemma add_attendees_spec add attendees :
  add_attendees add attendees
  = attendees
    ++ map JsString
         (filter (fun email => negb (has_email (filter truthy attendees) email)) add).
Proof.
  unfold add_attendees.
  generalize (filter truthy attendees) as existing. intro existing.
  generalize attendees as acc.
  induction add as [|email add IH]; intro acc; simpl.
  - now rewrite app_nil_r.
  - destruct (negb (has_email existing email)); simpl.
    + rewrite IH, <- app_assoc. reflexivity.
    + apply IH.
Qed.

Lemma has_email_in existing email :
  has_email existing email = true -> In (JsString email) existing.
Proof.
  unfold has_email. intro H. apply existsb_exists in H.
  destruct H as (v & Hin & Hv). destruct v; try discriminate.
  apply String.eqb_eq in Hv. now subst.
Qed.

Lemma includes_in remove email :
  In email remove -> includes remove (JsString email) = true.
Proof.
  intro H. simpl. apply existsb_exists. exists email.
  split; [exact H|apply String.eqb_refl].
Qed.

(** What the participant changes do to the attendees of the event. *)
Lemma edited_attendees_spec changes attendees :
  let final := edited_attendees changes attendees in
  (forall add email, ch_add_participants changes = Some add ->
                     In email add -> In (JsString email) final)
  /\ (forall remove email,
        ch_remove_participants changes = Some remove ->
        In email remove ->
        (forall add, ch_add_participants changes = Some add -> ~ In email add) ->
        ~ In (JsString email) final)
  /\ (forall v, In v final ->
                In v attendees
                \/ exists add email, ch_add_participants changes = Some add
                                     /\ In email add /\ v = JsString email)
  /\ (forall remove v,
        ch_remove_participants changes = Some remove ->
        In v final ->
        truthy v = true
        \/ exists add email, ch_add_participants changes = Some add
                             /\ In email add /\ v = JsString email).
Proof.
  intro final. unfold final, edited_attendees. clear final.
  set (kept := match ch_remove_participants changes with
               | Some remove => remove_attendees remove attendees
               | None => attendees
               end).
  assert (Hkept : forall v, In v kept -> In v attendees).
  { intros v. unfold kept. destruct (ch_remove_participants changes); [|auto].
    unfold remove_attendees. intro H. apply filter_In in H. exact (proj1 H). }
  assert (Hfinal : forall v,
             In v (match ch_add_participants changes with
                   | Some add => add_attendees add kept
                   | None => kept
                   end) ->
             In v kept
             \/ exists add email, ch_add_participants changes = Some add
                                  /\ In email add /\ v = JsString email).
  { intro v. destruct (ch_add_participants changes) as [add|]; [|auto].
    rewrite add_attendees_spec, in_app_iff, in_map_iff.
    intros [H|(email & <- & H)]; [now left|].
    apply filter_In in H. destruct H as [H _]. right. exists add, email. auto. }
  split; [|split; [|split]].
  - intros add email -> Hin. rewrite add_attendees_spec, in_app_iff.
    destruct (has_email (filter truthy kept) email) eqn:E.
    + left. apply has_email_in in E. apply filter_In in E. exact (proj1 E).
    + right. apply in_map. apply filter_In. split; [exact Hin|now rewrite E].
  - intros remove email Hrm Hin Hnot Hf.
    apply Hfinal in Hf. destruct Hf as [Hf|(add & email' & Ha & Hin' & Heq)].
    + unfold kept in Hf. rewrite Hrm in Hf. unfold remove_attendees in Hf.
      apply filter_In in Hf. destruct Hf as [_ Hf].
      rewrite (includes_in _ _ Hin), andb_false_r in Hf. discriminate.
    + injection Heq as <-. exact (Hnot add Ha Hin').
  - intros v Hf. apply Hfinal in Hf. destruct Hf as [Hf|Hf]; [left; auto|now right].
  - intros remove v Hrm Hf. apply Hfinal in Hf. destruct Hf as [Hf|Hf]; [|now right].
    left. unfold kept in Hf. rewrite Hrm in Hf. unfold remove_attendees in Hf.
    apply filter_In in Hf. destruct Hf as [_ Hf].
    apply andb_true_iff in Hf. exact (proj1 Hf).
Qed.

(** X13.  An edit with participant changes fetches the event, computes
    the new attendees and patches them, each call with its own client
    lookup.  In the patched list every address of [add_participants] is
    present; an address of [remove_participants] is absent unless the same
    request adds it back; nobody else appears who was not attending; and
    when a removal list is given (even an empty one) attendees without an
    e-mail are dropped as well. *)
Theorem X13_edit_participants (req : AuthRequest) (event_id : string)
    (changes : Changes) (s : Session) (client1 client2 : OAuth2Client)
    (w1 w2 : World) (event : JsObj) (attendees : list JsValue) :
  parse_editEvent (body req) = Some (event_id, changes) ->
  is_some (ch_add_participants changes)
  || is_some (ch_remove_participants changes) = true ->
  let w0 := match ch_add_meet_link changes with
            | Some true => with_ticks S (world s)
            | _ => world s
            end in
  getGoogleService req w0 = (Returned client1, w1) ->
  calendar_events_get client1 event_id = Returned event ->
  current_attendees event = Returned attendees ->
  getGoogleService req w1 = (Returned client2, w2) ->
  exists payload final,
    calendar_calls (snd (editEventController req s))
    = calendar_calls s ++ [EventsGet event_id; EventsPatch event_id payload]
    /\ obj_get "attendees" payload
       = JsArray (map (fun email => JsObject [("email", email)]) final)
    /\ (forall add email, ch_add_participants changes = Some add ->
                          In email add -> In (JsString email) final)
    /\ (forall remove email,
          ch_remove_participants changes = Some remove ->
          In email remove ->
          (forall add, ch_add_participants changes = Some add -> ~ In email add) ->
          ~ In (JsString email) final)
    /\ (forall v, In v final ->
                  In v attendees
                  \/ exists add email, ch_add_participants changes = Some add
                                       /\ In email add /\ v = JsString email)
    /\ (forall remove v,
          ch_remove_participants changes = Some remove ->
          In v final ->
          truthy v = true
          \/ exists add email, ch_add_participants changes = Some add
                               /\ In email add /\ v = JsString email).
Proof.
  intros Hparse Hcond w0 Hg1 Hget Hatt Hg2.
  exists ((fst (let payload : JsObj := [] in
                let payload :=
                  if truthy_opt_string (ch_title changes)
                  then payload ++ [("summary", js_of_opt_string (ch_title changes))]
                  else payload in
                let payload :=
                  if truthy_opt_string (ch_description changes)
                  then payload ++ [("description",
                                    js_of_opt_string (ch_description changes))]
                  else payload in
                (match ch_add_meet_link changes with
                 | Some true =>
                     payload ++ [("conferenceData",
                                  edit_conferenceData event_id (clock (ticks (world s))))]
                 | _ => payload
                 end, tt)))
          ++ [("attendees",
               JsArray (map (fun email => JsObject [("email", email)])
                            (edited_attendees changes attendees)))]).
  exists (edited_attendees changes attendees).
  split; [|split; [apply obj_get_snoc_same|apply edited_attendees_spec]].
  unfold editEventController. rewrite Hparse. unfold rtry.
  unfold w0 in Hg1. clear w0. destruct s as [w calls]. simpl in Hg1 |- *.
  destruct (truthy_opt_string (ch_title changes));
  destruct (truthy_opt_string (ch_description changes));
  destruct (ch_add_meet_link changes) as [[|]|];
  cbv beta iota zeta;
  rewrite Hcond;
  (erewrite rbind_run;
   [|first [ reflexivity
           | unfold rbind, in_world, Date_now, rret; simpl; reflexivity ]]);
  cbv beta iota zeta;
  (erewrite rbind_run;
   [|erewrite rbind_run;
     [|rewrite (fetchEvent_at req event_id _ _ client1 w1 Hg1), Hget; reflexivity];
     erewrite rbind_run; [|rewrite Hatt; reflexivity];
     reflexivity]);
  cbv beta iota zeta;
  unfold rbind;
  rewrite (editEvent_at req event_id _ _ _ client2 w2 Hg2);
  destruct (calendar_events_patch client2 event_id _);
  simpl; rewrite <- app_assoc; reflexivity.
Qed.

(** X14.  [rescheduleEventController] forwards the two times exactly as
    they came in the payload: any two non-empty strings are patched as
    [start.dateTime] and [end.dateTime], with no check that they are dates
    or that the start precedes the end.  The answer carries the id the
    provider returned, or the requested id when it returned none; a
    failing patch gives 400. *)
Theorem X14_reschedule_forwards_times (req : AuthRequest)
    (event_id new_start_time new_end_time : string) (s : Session)
    (client : OAuth2Client) (w1 : World) :
  parse_rescheduleEvent (body req) = Some (event_id, new_start_time, new_end_time) ->
  getGoogleService req (world s) = (Returned client, w1) ->
  let payload := reschedule_body new_start_time new_end_time in
  rescheduleEventController req s
  = (Returned
       match calendar_events_patch client event_id payload with
       | Returned updated =>
           {| api_status := 200;
              api_json :=
                RescheduledJson true
                  (js_or (obj_get "id" updated) (JsString event_id)) |}
       | Thrown error =>
           {| api_status := 400;
              api_json :=
                FailureJson false
                  (failure_message error "Failed to reschedule event") |}
       end,
     called (EventsPatch event_id payload) w1 s).
Proof.
  intros Hparse Hg payload.
  unfold rescheduleEventController. rewrite Hparse.
  unfold rtry, rbind, rescheduleEvent, rbind, in_world, googleService.
  rewrite Hg. unfold payload, reschedule_body, calendar_call, called, rret.
  simpl.
  match goal with
  | |- context [calendar_events_patch client event_id ?p] =>
      destruct (calendar_events_patch client event_id p); reflexivity
  end.
Qed.

Lemma map_outcome_Forall2 {A B} (f : A -> Outcome B) l l' :
  map_outcome f l = Returned l' ->
  Forall2 (fun x y => f x = Returned y) l l'.
Proof.
  revert l'. induction l as [|x l IH]; simpl; intros l'.
  - intros [= <-]. constructor.
  - destruct (f x) as [y|e] eqn:Ef; [|discriminate].
    destruct (map_outcome f l) as [ys|e]; [|discriminate].
    intros [= <-]. constructor; auto.
Qed.

Lemma js_or_present a b : present b -> present (js_or a b).
Proof.
  unfold js_or, present. intro Hb. destruct (truthy a) eqn:E; [now left|exact Hb].
Qed.

Lemma format_event_present event f :
  format_event event = Returned f ->
  fe_event_id f = obj_get "id" event
  /\ present (fe_title f) /\ present (fe_description f)
  /\ present (fe_start_time f) /\ present (fe_end_time f)
  /\ (truthy (chain_get (obj_get "start" event) "dateTime") = false ->
      truthy (chain_get (obj_get "start" event) "date") = true ->
      fe_start_time f = chain_get (obj_get "start" event) "date").
Proof.
  unfold format_event.
  destruct (attendee_emails (obj_get "attendees" event)); [|discriminate].
  intros [= <-]. simpl.
  assert (He : present (JsString EmptyString)) by now right.
  repeat split; try (repeat apply js_or_present; exact He).
  intros H1 H2. unfold js_or. now rewrite H1, H2.
Qed.

(** X15.  [fetchEventsController] asks for the events between the start
    of the first day and the end of the last, both taken in the fixed
    zone "Africa/Lagos"; without an [end_date] the window is the single
    day of [start_date].  When everything succeeds it answers 200 with one
    formatted event per listed event, in order, in which the title, the
    description and the two times are never undefined (an empty string
    stands for what is missing) and an all-day event shows its [date]. *)
Theorem X15_fetch_window_and_format (req : AuthRequest) (start_date : Z)
    (end_date : option Z) (s : Session) (first_day last_day : string * string)
    (client : OAuth2Client) (w1 : World) (items : option (list JsObj))
    (formatted : list FormattedEvent) :
  parse_fetchEvents (body req) = Some (start_date, end_date) ->
  getDayBoundsInUTC start_date "Africa/Lagos" = Returned first_day ->
  getDayBoundsInUTC (match end_date with Some d => d | None => start_date end)
    "Africa/Lagos" = Returned last_day ->
  getGoogleService req (world s) = (Returned client, w1) ->
  calendar_events_list_with client (window_query first_day last_day)
  = Returned items ->
  let events := match items with Some l => l | None => [] end in
  map_outcome format_event events = Returned formatted ->
  fetchEventsController req s
  = (Returned {| api_status := 200; api_json := EventsJson true formatted |},
     called (EventsListWith (window_query first_day last_day)) w1 s)
  /\ (end_date = None -> last_day = first_day)
  /\ Forall2
       (fun event f =>
          fe_event_id f = obj_get "id" event
          /\ present (fe_title f) /\ present (fe_description f)
          /\ present (fe_start_time f) /\ present (fe_end_time f)
          /\ (truthy (chain_get (obj_get "start" event) "dateTime") = false ->
              truthy (chain_get (obj_get "start" event) "date") = true ->
              fe_start_time f = chain_get (obj_get "start" event) "date"))
       events formatted.
Proof.
  intros Hparse Hfirst Hlast Hg Hlist events Hfmt.
  split; [|split].
  - unfold fetchEventsController. rewrite Hparse.
    unfold rtry, rbind at 1. rewrite Hfirst.
    unfold rbind at 1. rewrite Hlast.
    unfold rbind at 1, fetchEvents, rbind, in_world, googleService. rewrite Hg.
    unfold calendar_call. simpl.
    fold (window_query first_day last_day). rewrite Hlist.
    unfold rret. fold events. rewrite Hfmt. reflexivity.
  - intros ->. rewrite Hfirst in Hlast. now injection Hlast.
  - apply map_outcome_Forall2 in Hfmt.
    induction Hfmt as [|event f es fs Hf _ IH]; constructor; [|exact IH].
    now apply format_event_present.
Qed.

Lemma getGoogleService_unreachable req w :
  unreachable req w ->
  getGoogleService req w = (Thrown (unreachable_error req), unreachable_world req w).
Proof.
  unfold unreachable_error, unreachable_world.
  intros [Hp|(uid & Hp & Hf)]; rewrite Hp.
  - exact (getGoogleService_unauthenticated req w Hp).
  - exact (getGoogleService_not_connected req uid w Hp Hf).
Qed.

Lemma unreachable_message req otherwise :
  failure_message (unreachable_error req) otherwise = otherwise.
Proof. unfold unreachable_error. destruct (principal req); reflexivity. Qed.

(** A service operation of an unreachable request fails before its
    calendar call. *)
Lemma service_unreachable {B} (k : OAuth2Client -> Request B) req w calls :
  unreachable req w ->
  rbind (in_world (googleService req)) k {| world := w; calendar_calls := calls |}
  = (Thrown (unreachable_error req),
     {| world := unreachable_world req w; calendar_calls := calls |}).
Proof.
  intro Hu.
  exact (service_fails_early k req {| world := w; calendar_calls := calls |} _ _
           (getGoogleService_unreachable req w Hu)).
Qed.

Lemma fetchEvent_unreachable req eventId w calls :
  unreachable req w ->
  fetchEvent req eventId {| world := w; calendar_calls := calls |}
  = (Thrown (unreachable_error req),
     {| world := unreachable_world req w; calendar_calls := calls |}).
Proof. intro Hu. unfold fetchEvent. now apply service_unreachable. Qed.

Lemma editEvent_unreachable req eventId updates w calls :
  unreachable req w ->
  editEvent req eventId updates {| world := w; calendar_calls := calls |}
  = (Thrown (unreachable_error req),
     {| world := unreachable_world req w; calendar_calls := calls |}).
Proof. intro Hu. unfold editEvent. now apply service_unreachable. Qed.

Lemma unreachable_world_trace req w :
  trace (unreachable_world req w) = trace w ++ unreachable_accesses req.
Proof.
  unfold unreachable_world, unreachable_accesses.
  destruct (principal req); simpl; [reflexivity|now rewrite app_nil_r].
Qed.

(** X17.  For a request without principal, or whose principal has no
    Google integration, every controller with a valid payload answers 400
    with its own generic message, and all it has done by then is the
    lookup of the integration (nothing at all without principal): no
    provider call is in the trace, no calendar call is made.  The message
    "Google is not connected for this user" is kept for another error
    text than the two [getGoogleService] throws here. *)
Theorem X17_not_connected_generic_message (req : AuthRequest) (s : Session) :
  unreachable req (world s) ->
  (forall start end_,
      nonempty_string (obj_get "start_time" (body req)) = Some start ->
      nonempty_string (obj_get "end_time" (body req)) = Some end_ ->
      exists w',
        checkConflictController req (world s)
        = (Returned {| status := 400;
                       json := MessageJson false "Unable to check for conflicts" |},
           w')
        /\ trace w' = trace (world s) ++ unreachable_accesses req)
  /\ (forall p,
        parse_createEvent (body req) = Some p ->
        exists w',
          createEventController req (world s)
          = (Returned {| api_status := 400;
                         api_json := FailureJson false "Unable to create event" |},
             w')
          /\ trace w' = trace (world s) ++ unreachable_accesses req)
  /\ (forall event_id changes,
        parse_editEvent (body req) = Some (event_id, changes) ->
        exists s',
          editEventController req s
          = (Returned {| api_status := 400;
                         api_json := EditFailureJson false "Failed to edit event" |},
             s')
          /\ calendar_calls s' = calendar_calls s
          /\ trace (world s') = trace (world s) ++ unreachable_accesses req)
  /\ (forall event_id,
        nonempty_string (obj_get "event_id" (body req)) = Some event_id ->
        exists s',
          deleteEventController req s
          = (Returned {| api_status := 400;
                         api_json := FailureJson false "Failed to delete event" |},
             s')
          /\ calendar_calls s' = calendar_calls s
          /\ trace (world s') = trace (world s) ++ unreachable_accesses req)
  /\ (forall event_id new_start_time new_end_time,
        parse_rescheduleEvent (body req)
        = Some (event_id, new_start_time, new_end_time) ->
        exists s',
          rescheduleEventController req s
          = (Returned {| api_status := 400;
                         api_json := FailureJson false "Failed to reschedule event" |},
             s')
          /\ calendar_calls s' = calendar_calls s
          /\ trace (world s') = trace (world s) ++ unreachable_accesses req)
  /\ (forall start_date end_date first_day last_day,
        parse_fetchEvents (body req) = Some (start_date, end_date) ->
        getDayBoundsInUTC start_date "Africa/Lagos" = Returned first_day ->
        getDayBoundsInUTC (match end_date with Some d => d | None => start_date end)
          "Africa/Lagos" = Returned last_day ->
        exists s',
          fetchEventsController req s
          = (Returned {| api_status := 400;
                         api_json := EventsFailureJson false "Failed to fetch events" |},
             s')
          /\ calendar_calls s' = calendar_calls s
          /\ trace (world s') = trace (world s) ++ unreachable_accesses req).
Proof.
  intro Hu. destruct s as [w calls]. simpl in Hu. cbn [world calendar_calls].
  pose proof (getGoogleService_unreachable req w Hu) as Hg.
  pose proof (unreachable_world_trace req w) as Ht.
  split; [|split; [|split; [|split; [|split]]]].
  - intros start end_ Hs He.
    unfold checkConflictController. rewrite Hs, He.
    unfold try_catch, bind at 1, checkConflict, bind at 1, googleService.
    rewrite Hg. unfold ret.
    fold (failure_message (unreachable_error req) "Unable to check for conflicts").
    rewrite unreachable_message. eexists. split; [reflexivity|exact Ht].
  - intros p Hparse.
    unfold createEventController. rewrite Hparse.
    unfold try_catch, bind at 1, createEvent, bind at 1, googleService.
    rewrite Hg. unfold ret. rewrite unreachable_message.
    eexists. split; [reflexivity|exact Ht].
  - intros event_id changes Hparse.
    unfold editEventController. rewrite Hparse. unfold rtry.
    assert (Hu' : unreachable req (with_ticks S w)) by exact Hu.
    assert (Ht' : trace (unreachable_world req (with_ticks S w))
                  = trace w ++ unreachable_accesses req)
      by exact (unreachable_world_trace req (with_ticks S w)).
    destruct (truthy_opt_string (ch_title changes));
    destruct (truthy_opt_string (ch_description changes));
    destruct (ch_add_meet_link changes) as [[|]|];
    destruct (is_some (ch_add_participants changes)
              || is_some (ch_remove_participants changes))%bool;
    cbv beta iota zeta;
    unfold rbind, rret, in_world, Date_now; simpl;
    rewrite ?(fetchEvent_unreachable req event_id w calls Hu),
            ?(fetchEvent_unreachable req event_id (with_ticks S w) calls Hu'),
            ?(editEvent_unreachable req event_id _ w calls Hu),
            ?(editEvent_unreachable req event_id _ (with_ticks S w) calls Hu');
    rewrite unreachable_message; eexists;
    (split; [reflexivity|split; [reflexivity|first [exact Ht|exact Ht']]]).
  - intros event_id Hparse.
    unfold deleteEventController. rewrite Hparse. unfold rtry.
    unfold rbind at 1, deleteEvent.
    rewrite (service_unreachable _ req w calls Hu), unreachable_message.
    eexists. split; [reflexivity|split; [reflexivity|exact Ht]].
  - intros event_id st en Hparse.
    unfold rescheduleEventController. rewrite Hparse. unfold rtry.
    unfold rbind at 1, rescheduleEvent.
    rewrite (service_unreachable _ req w calls Hu), unreachable_message.
    eexists. split; [reflexivity|split; [reflexivity|exact Ht]].
  - intros start_date end_date first_day last_day Hparse Hfirst Hlast.
    unfold fetchEventsController. rewrite Hparse. unfold rtry.
    unfold rbind at 1. rewrite Hfirst.
    unfold rbind at 1. rewrite Hlast.
    unfold rbind at 1, fetchEvents.
    rewrite (service_unreachable _ req w calls Hu), unreachable_message.
    eexists. split; [reflexivity|split; [reflexivity|exact Ht]].
Qed.

End Program.

(* ------------------------------------------------------------------ *)
(** ** The scenarios of the specification, run in the concrete environment *)

(** Scenario E and the unit test of the security guide. *)
Lemma C1_authorization_gate_witness :
  principal alice_request = Some alice
  /\ authorizeUserAccess alice_request (Id_toString bob)
     = Thrown (Error "Unauthorized: Cannot access another user's resources")
  /\ authorizeUserAccess alice_request (Id_toString alice) = Returned true
  /\ fst (getGoogleServiceByUserId sample_clock sample_toISOString
            revoking_provider "user1" "user2" fresh_world)
     = Thrown (Error "Unauthorized: Cannot access another user's integrations")
  /\ getGoogleServiceByUserId sample_clock sample_toISOString
       revoking_provider "user1" "user1" fresh_world
     = getGoogleService sample_clock sample_toISOString revoking_provider
         (request_of (IdString "user1") []) fresh_world.
Proof.
  destruct (C1_authorization_gate sample_clock sample_toISOString revoking_provider)
    as (H1 & H2 & H3).
  destruct (H1 alice_request alice (Id_toString bob) eq_refl) as [Hn _].
  destruct (H1 alice_request alice (Id_toString alice) eq_refl) as [_ He].
  split; [reflexivity|].
  split; [apply Hn; discriminate|].
  split; [apply He; reflexivity|].
  split; [rewrite H2 by discriminate; reflexivity|].
  apply H3. reflexivity.
Defined.

(** Scenario C, the freshness test alone: one minute left, so one call. *)
Lemma C2_freshness_test_witness :
  nth_error (docs stale_loaded_world) 0%nat = Some stale_integration
  /\ 0 <= sample_clock (ticks stale_loaded_world)
  /\ refresh_attempts
       (snd (ensureFreshAccessToken sample_clock sample_toISOString
               refreshing_provider (listening_client stale_integration 0%nat) 0%nat
               stale_loaded_world))
     = 1%nat.
Proof.
  set (w := stale_loaded_world).
  assert (H0 : 0 <= sample_clock (ticks w)) by (vm_compute; discriminate).
  split; [reflexivity|]. split; [exact H0|].
  pose proof (C2_freshness_test sample_clock sample_toISOString refreshing_provider
                (listening_client stale_integration 0%nat) 0%nat w stale_integration
                eq_refl H0) as H.
  cbv zeta in H. destruct H as (_ & [_ Hs] & _).
  apply Hs. right. exists (1700000000000 + 1 * 60 * 1000).
  split; [reflexivity|]. vm_compute. discriminate.
Defined.

(** Scenario B: expiry ten minutes ahead. *)
Lemma C3_fresh_is_noop_witness :
  principal alice_request = Some alice
  /\ find (matches alice "google") (db fresh_world) = Some fresh_integration
  /\ 0 <= sample_clock (ticks fresh_world)
  /\ sample_clock (ticks fresh_world) + TOKEN_SKEW_MS
     < 1700000000000 + 10 * 60 * 1000
  /\ exists client w1 client' w2,
       getGoogleService sample_clock sample_toISOString revoking_provider
         alice_request fresh_world = (Returned client, w1)
       /\ db w1 = db fresh_world
       /\ trace w1 = [StoreFindOne alice "google"]
       /\ getGoogleService sample_clock sample_toISOString revoking_provider
            alice_request w1 = (Returned client', w2)
       /\ db w2 = db fresh_world.
Proof.
  set (w := fresh_world).
  assert (H0 : 0 <= sample_clock (ticks w)) by (vm_compute; discriminate).
  assert (H1 : sample_clock (ticks w) + TOKEN_SKEW_MS < 1700000000000 + 10 * 60 * 1000)
    by reflexivity.
  split; [reflexivity|]. split; [reflexivity|]. split; [exact H0|]. split; [exact H1|].
  destruct (C3_fresh_is_noop sample_clock sample_toISOString revoking_provider
              alice_request alice w fresh_integration _ eq_refl eq_refl eq_refl H0 H1)
    as (client & w1 & Hrun & _ & Hdb & Htr & Hagain).
  assert (Ht : ticks w1 = 1%nat).
  { vm_compute in Hrun. injection Hrun as _ <-. reflexivity. }
  rewrite Ht in Hagain.
  destruct (Hagain ltac:(vm_compute; discriminate) eq_refl)
    as (client' & w2 & Hrun2 & _ & Hdb2 & _).
  exists client, w1, client', w2. repeat split; assumption.
Defined.



(** Scenario E through the entry point with explicit ids. *)
Lemma C6_gate_before_store_witness :
  Id_toString bob <> Id_toString alice
  /\ exists w',
       getGoogleServiceByUserId sample_clock sample_toISOString refreshing_provider
         (Id_toString bob) (Id_toString alice) bob_only_world
       = (Thrown (Error "Unauthorized: Cannot access another user's integrations"), w')
       /\ trace w' = [].
Proof.
  assert (H : Id_toString bob <> Id_toString alice) by discriminate.
  split; [exact H|].
  destruct (C6_gate_before_store sample_clock sample_toISOString refreshing_provider
              (Id_toString bob) (Id_toString alice) bob_only_world H)
    as (w' & Hrun & _ & Htr & _).
  exists w'. split; [exact Hrun|exact Htr].
Defined.

(** Scenario A: only another user is connected. *)
Lemma C7_not_connected_witness :
  principal alice_request = Some alice
  /\ find (matches alice "google") (db bob_only_world) = None
  /\ exists w',
       getGoogleService sample_clock sample_toISOString refreshing_provider
         alice_request bob_only_world
       = (Thrown (Error "No Google integration found"), w')
       /\ db w' = db bob_only_world.
Proof.
  set (w := bob_only_world).
  split; [reflexivity|]. split; [reflexivity|].
  destruct (C7_not_connected sample_clock sample_toISOString refreshing_provider
              alice_request alice w eq_refl eq_refl)
    as (w' & Hrun & _ & Hdb & _).
  exists w'. split; [exact Hrun|exact Hdb].
Defined.

(** A conflict check between 10:00 and 11:00 against [sample_events]. *)
Lemma C9_conflict_scan_witness :
  exists client w1 conflicts w' conflict,
    getGoogleService sample_clock sample_toISOString refreshing_provider
      alice_request fresh_world = (Returned client, w1)
    /\ checkConflictController sample_clock sample_toISOString refreshing_provider
         sample_Date_parse sample_events_list alice_request fresh_world
       = (Returned {| status := 200;
                      json := ConflictJson true conflict conflicts |}, w')
    /\ (conflict = true <-> conflicts <> []).
Proof.
  set (w := fresh_world).
  destruct (getGoogleService sample_clock sample_toISOString refreshing_provider
              alice_request w) as [[client|e] w1] eqn:Hg;
    [|vm_compute in Hg; discriminate Hg].
  destruct (C9_conflict_scan sample_clock sample_toISOString refreshing_provider
              sample_Date_parse sample_events_list alice_request
              "2024-01-01T10:00:00Z" "2024-01-01T11:00:00Z"
              1704103200000 1704106800000 w w1 client (Some sample_events)
              eq_refl eq_refl ltac:(discriminate) ltac:(discriminate)
              eq_refl eq_refl Hg eq_refl)
    as (conflicts & w' & conflict & _ & _ & _ & _ & Hctl & Hiff).
  exists client, w1, conflicts, w', conflict. repeat split; try assumption.
  - apply Hiff.
  - apply Hiff.
Defined.

(** Events whose location is the Google Meet marker, padded and
    capitalised, and events whose location is something else. *)
Lemma C10_google_meet_marker_witness :
  toLowerCase (trim "  Google Meet ") = "google meet"
  /\ toLowerCase (trim padded_marker) = "google meet"
  /\ toLowerCase (trim zero_width_marker) <> "google meet"
  /\ toLowerCase (trim next_line_marker) <> "google meet"
  /\ toLowerCase (trim vowel_separator_marker) <> "google meet"
  /\ exists client w1,
       getGoogleService sample_clock sample_toISOString refreshing_provider
         alice_request fresh_world = (Returned client, w1)
       /\ (forall location,
             In location ["  Google Meet "; padded_marker] ->
             exists params w',
               createEvent sample_clock sample_toISOString refreshing_provider
                 sample_events_insert sample_random alice_request
                 (Some (event_at location)) fresh_world
               = (sample_events_insert client params, w')
               /\ obj_get "location" (requestBody params) = JsUndefined
               /\ obj_get "conferenceData" (requestBody params)
                  = JsObject
                      [ ("createRequest",
                         JsObject
                           [ ("requestId", JsString "meet-1700000000001-4242");
                             ("conferenceSolutionKey",
                              JsObject [("type", JsString "hangoutsMeet")]) ]) ]
               /\ conferenceDataVersion params = Some 1)
       /\ (forall location,
             In location ["Room 4"; zero_width_marker; next_line_marker;
                          vowel_separator_marker] ->
             exists params w',
               createEvent sample_clock sample_toISOString refreshing_provider
                 sample_events_insert sample_random alice_request
                 (Some (event_at location)) fresh_world
               = (sample_events_insert client params, w')
               /\ obj_get "location" (requestBody params) = JsString location
               /\ obj_get "conferenceData" (requestBody params) = JsUndefined
               /\ conferenceDataVersion params = None).
Proof.
  set (w := fresh_world).
  assert (H1 : toLowerCase (trim "  Google Meet ") = "google meet") by reflexivity.
  assert (H2 : toLowerCase (trim padded_marker) = "google meet")
    by (vm_compute; reflexivity).
  assert (H3 : toLowerCase (trim zero_width_marker) <> "google meet")
    by (vm_compute; discriminate).
  assert (H4 : toLowerCase (trim next_line_marker) <> "google meet")
    by (vm_compute; discriminate).
  assert (H5 : toLowerCase (trim vowel_separator_marker) <> "google meet")
    by (vm_compute; discriminate).
  assert (H6 : toLowerCase (trim "Room 4") <> "google meet")
    by (vm_compute; discriminate).
  split; [exact H1|]. split; [exact H2|]. split; [exact H3|].
  split; [exact H4|]. split; [exact H5|].
  destruct (getGoogleService sample_clock sample_toISOString refreshing_provider
              alice_request w) as [[client|e] w1] eqn:Hg;
    [|vm_compute in Hg; discriminate Hg].
  assert (Hw1 : ticks w1 = 1%nat /\ draws w1 = 0%nat).
  { vm_compute in Hg. injection Hg as _ <-. split; reflexivity. }
  destruct Hw1 as [Ht Hd].
  exists client, w1. split; [reflexivity|]. split.
  - intros location Hin.
    assert (Hm : toLowerCase (trim location) = "google meet")
      by (destruct Hin as [<-|[<-|[]]]; assumption).
    destruct (C10_google_meet_marker sample_clock sample_toISOString
                refreshing_provider sample_events_insert sample_random
                alice_request (Some (event_at location)) location w w1 client
                Hg eq_refl)
      as (params & w' & Hrun & _ & _ & Hmeet & _).
    destruct (Hmeet Hm) as (Hl & Hc & Hv).
    exists params, w'.
    split; [exact Hrun|]. split; [exact Hl|]. split; [|exact Hv].
    rewrite Hc, Ht, Hd. reflexivity.
  - intros location Hin.
    assert (Hm : toLowerCase (trim location) <> "google meet")
      by (destruct Hin as [<-|[<-|[<-|[<-|[]]]]]; assumption).
    destruct (C10_google_meet_marker sample_clock sample_toISOString
                refreshing_provider sample_events_insert sample_random
                alice_request (Some (event_at location)) location w w1 client
                Hg eq_refl)
      as (params & w' & Hrun & _ & _ & _ & Hother).
    destruct (Hother Hm) as (Hl & Hc & Hv).
    exists params, w'.
    split; [exact Hrun|]. split; [exact Hl|]. split; [exact Hc|exact Hv].
Defined.


(** The token endpoint is unreachable: nothing is written. *)
Lemma X1_transient_failure_no_write_witness :
  response_data_error transient_error <> Some "invalid_grant"
  /\ exists w',
       getGoogleService sample_clock sample_toISOString failing_provider
         alice_request stale_world = (Thrown transient_error, w')
       /\ db w' = db stale_world.
Proof.
  assert (H : response_data_error transient_error <> Some "invalid_grant")
    by discriminate.
  split; [exact H|].
  destruct (X1_transient_failure_no_write sample_clock sample_toISOString
              failing_provider alice_request alice stale_world stale_integration
              transient_error eq_refl eq_refl eq_refl eq_refl H)
    as (w' & Hrun & Hdb & _).
  exists w'. split; [exact Hrun|exact Hdb].
Defined.

(** The event of scenario C, delivered twice. *)
Lemma X4_listener_settles_witness :
  nth_error (docs stale_loaded_world) 0%nat = Some stale_integration
  /\ fst (tokens_listener sample_clock sample_toISOString 0%nat new_tokens
            stale_loaded_world) = Returned tt
  /\ tokens_listener sample_clock sample_toISOString 0%nat new_tokens
       (snd (tokens_listener sample_clock sample_toISOString 0%nat new_tokens
               stale_loaded_world))
     = (Returned tt,
        snd (tokens_listener sample_clock sample_toISOString 0%nat new_tokens
               stale_loaded_world)).
Proof.
  split; [reflexivity|]. split; [reflexivity|].
  exact (X4_listener_settles sample_clock sample_toISOString 0%nat new_tokens
           stale_loaded_world stale_integration eq_refl eq_refl).
Defined.

(** The refresh answers with an expiry of 9e15 ms. *)
Lemma X5_out_of_range_expiry_drops_event_witness :
  8640000000000000 < Z.abs 9000000000000000
  /\ exists client w',
       getGoogleService sample_clock sample_toISOString overflowing_provider
         alice_request stale_world = (Returned client, w')
       /\ db w' = db stale_world.
Proof.
  assert (H : 8640000000000000 < Z.abs 9000000000000000) by reflexivity.
  split; [exact H|].
  destruct (X5_out_of_range_expiry_drops_event sample_clock sample_toISOString
              overflowing_provider alice_request alice stale_world
              stale_integration overflowing_tokens _ 9000000000000000
              eq_refl eq_refl eq_refl eq_refl eq_refl H)
    as (client & w' & Hrun & _ & Hdb & _).
  exists client, w'. split; [exact Hrun|exact Hdb].
Defined.

(** Scenario C followed, once the write has landed, by a second request. *)
Lemma X6_refresh_then_fresh_witness :
  unique_ids (db stale_world)
  /\ exists client w1 d1 client2 w2,
       getGoogleService sample_clock sample_toISOString refreshing_provider
         alice_request stale_world = (Returned client, w1)
       /\ db w1 = db stale_world
       /\ find (matches alice "google") (db (settle 0 (Returned tt) w1)) = Some d1
       /\ Integration.expires_at d1 = Some (1700000000000 + 3600 * 1000)
       /\ getGoogleService sample_clock sample_toISOString refreshing_provider
            alice_request (settle 0 (Returned tt) w1) = (Returned client2, w2)
       /\ refresh_attempts w2 = refresh_attempts w1
       /\ db w2 = db (settle 0 (Returned tt) w1).
Proof.
  assert (Hu : unique_ids (db stale_world)).
  { unfold unique_ids. simpl. constructor; [intros []|constructor]. }
  split; [exact Hu|].
  destruct (X6_refresh_then_fresh sample_clock sample_toISOString
              refreshing_provider alice_request alice stale_world
              stale_integration new_tokens _ (1700000000000 + 3600 * 1000)
              Hu eq_refl eq_refl eq_refl eq_refl eq_refl
              ltac:(vm_compute; discriminate) ltac:(vm_compute; discriminate)
              ltac:(vm_compute; discriminate) eq_refl)
    as (client & w1 & u & d1 & client2 & w2 & Hrun & _ & Hdb1 & Hf & He & _
        & Hrun2 & _ & Hr & _ & Hdb).
  exists client, w1, d1, client2, w2.
  split; [exact Hrun|]. split; [exact Hdb1|]. split; [exact Hf|].
  split; [exact He|]. split; [exact Hrun2|]. split; [exact Hr|exact Hdb].
Defined.

(** A request without user. *)
Lemma X7_unauthenticated_is_rejected_witness :
  principal anonymous_request = None
  /\ authorizeUserAccess anonymous_request (Id_toString alice)
     = Thrown (Error "User not authenticated")
  /\ getGoogleService sample_clock sample_toISOString refreshing_provider
       anonymous_request fresh_world
     = (Thrown (Error "User not authenticated"), fresh_world).
Proof.
  split; [reflexivity|].
  destruct (X7_unauthenticated_is_rejected sample_clock sample_toISOString
              refreshing_provider anonymous_request (Id_toString alice) fresh_world
              eq_refl)
    as (Hu & _ & Hg).
  split; [exact Hu|exact Hg].
Defined.

(** Alice passes the admin gate and is kept from the resources of Bob. *)
Lemma X8_admin_gate_admits_everyone_witness :
  principal alice_request = Some alice
  /\ authorizeAdminAccess alice_request = Returned true
  /\ authorizeUserAccess alice_request (Id_toString bob) <> Returned true.
Proof.
  split; [reflexivity|].
  destruct (X8_admin_gate_admits_everyone alice_request alice (Id_toString bob)
              eq_refl)
    as (Ha & Hb).
  split; [exact Ha|]. apply Hb. discriminate.
Defined.


(** A conflict check whose start is the word "tomorrow". *)
Lemma X9_invalid_dates_after_client_witness :
  new_Date_of_string sample_Date_parse "tomorrow" = None
  /\ exists client w1,
       getGoogleService sample_clock sample_toISOString refreshing_provider
         (request_with bad_dates_body) stale_world = (Returned client, w1)
       /\ refresh_attempts w1 = 1%nat
       /\ checkConflictController sample_clock sample_toISOString refreshing_provider
            sample_Date_parse sample_events_list (request_with bad_dates_body)
            stale_world
          = (Returned {| status := 400;
                         json := MessageJson false "Unable to check for conflicts" |},
             w1).
Proof.
  assert (Hbad : new_Date_of_string sample_Date_parse "tomorrow" = None)
    by reflexivity.
  split; [exact Hbad|].
  destruct (getGoogleService sample_clock sample_toISOString refreshing_provider
              (request_with bad_dates_body) stale_world)
    as [[client|e] w1] eqn:Hg; [|vm_compute in Hg; discriminate Hg].
  destruct (X9_invalid_dates_after_client sample_clock sample_toISOString
              refreshing_provider sample_Date_parse sample_events_list
              (request_with bad_dates_body) "tomorrow" "2024-01-01T11:00:00Z"
              stale_world w1 client eq_refl eq_refl
              ltac:(discriminate) ltac:(discriminate) Hg (or_introl Hbad))
    as (_ & Hctl).
  exists client, w1. split; [reflexivity|]. split; [|exact Hctl].
  vm_compute in Hg. injection Hg as _ <-. reflexivity.
Defined.

(** Event data with a [summary] and a [colorId] of its own. *)
Lemma X10_extra_event_data_forwarded_witness :
  exists client w1 params w',
    getGoogleService sample_clock sample_toISOString refreshing_provider
      alice_request fresh_world = (Returned client, w1)
    /\ createEvent sample_clock sample_toISOString refreshing_provider
         sample_events_insert sample_random alice_request (Some decorated_event)
         fresh_world
       = (sample_events_insert client params, w')
    /\ obj_get "summary" (requestBody params) = JsString "Override"
    /\ obj_get "colorId" (requestBody params) = JsString "7"
    /\ obj_get "title" (requestBody params) = JsUndefined.
Proof.
  destruct (getGoogleService sample_clock sample_toISOString refreshing_provider
              alice_request fresh_world)
    as [[client|e] w1] eqn:Hg; [|vm_compute in Hg; discriminate Hg].
  destruct (X10_extra_event_data_forwarded sample_clock sample_toISOString
              refreshing_provider sample_events_insert sample_random
              alice_request (Some decorated_event) fresh_world w1 client Hg)
    as (params & w' & Hrun & Hfwd & Hnever).
  exists client, w1, params, w'.
  split; [reflexivity|]. split; [exact Hrun|].
  split; [apply Hfwd; [reflexivity|reflexivity|left; discriminate]|].
  split; [apply Hfwd; [reflexivity|reflexivity|left; discriminate]|].
  apply Hnever. simpl. auto.
Defined.

(** A payload with the Google Meet marker, two guests and a stray
    [colorId]. *)
Lemma X11_createEventController_request_witness :
  exists p client w1 w',
    parse_createEvent sample_is_email create_body = Some p
    /\ getGoogleService sample_clock sample_toISOString refreshing_provider
         (request_with create_body) fresh_world = (Returned client, w1)
    /\ trace w'
       = trace w1
         ++ [ProviderEventsInsert
               (controller_insert p (sample_clock (ticks w1))
                  (sample_random (draws w1)))]
    /\ fst (createEventController sample_clock sample_toISOString
              refreshing_provider sample_events_insert sample_random
              sample_is_email (request_with create_body) fresh_world)
       = Returned
           {| api_status := 200;
              api_json :=
                CreatedJson true (JsString "evt1") JsUndefined
                  (JsString "2024-01-01T10:00:00Z")
                  (JsString "2024-01-01T11:00:00Z") |}
    /\ obj_get "colorId"
         (requestBody (controller_insert p (sample_clock (ticks w1))
                         (sample_random (draws w1))))
       = JsUndefined.
Proof.
  destruct (parse_createEvent sample_is_email create_body) as [p|] eqn:Hp;
    [|vm_compute in Hp; discriminate Hp].
  destruct (getGoogleService sample_clock sample_toISOString refreshing_provider
              (request_with create_body) fresh_world)
    as [[client|e] w1] eqn:Hg; [|vm_compute in Hg; discriminate Hg].
  destruct (X11_createEventController_request sample_clock sample_toISOString
              refreshing_provider sample_events_insert sample_random
              sample_is_email (request_with create_body) p fresh_world w1 client
              Hp Hg)
    as (w' & Htr & Hctl).
  exists p, client, w1, w'.
  split; [reflexivity|]. split; [reflexivity|]. split; [exact Htr|].
  vm_compute in Hp. injection Hp as <-.
  split; [rewrite Hctl; reflexivity|reflexivity].
Defined.

(** An edit that renames, clears the description with an empty string,
    asks for a meeting link and changes the guests. *)
Lemma X12_edit_reports_fields_witness :
  parse_editEvent sample_is_email edit_body = Some ("evt1", sample_changes)
  /\ expected_fields sample_changes = ["title"; "meeting_link"; "participants"]
  /\ exists resp s',
       editEventController sample_clock sample_toISOString refreshing_provider
         sample_events_patch sample_events_get sample_is_email
         (request_with edit_body) (session_of fresh_world)
       = (Returned resp, s')
       /\ ((api_status resp = 200
            /\ exists id meet_link,
                 api_json resp
                 = EditedJson true id (expected_fields sample_changes) meet_link)
           \/ (api_status resp = 400
               /\ exists msg, api_json resp = EditFailureJson false msg)).
Proof.
  split; [reflexivity|]. split; [reflexivity|].
  destruct (editEventController sample_clock sample_toISOString refreshing_provider
              sample_events_patch sample_events_get sample_is_email
              (request_with edit_body) (session_of fresh_world))
    as [[resp|e] s'] eqn:Hrun; [|vm_compute in Hrun; discriminate Hrun].
  exists resp, s'. split; [reflexivity|].
  exact (X12_edit_reports_fields sample_clock sample_toISOString
           refreshing_provider sample_events_patch sample_events_get
           sample_is_email (request_with edit_body) "evt1" sample_changes
           (session_of fresh_world) s' resp eq_refl Hrun).
Defined.


(** Bob is removed, Carol added, the room without e-mail dropped, Dave
    kept. *)
Lemma X13_edit_participants_witness :
  parse_editEvent sample_is_email edit_body = Some ("evt1", sample_changes)
  /\ exists client1 w1 client2 w2 payload final,
       getGoogleService sample_clock sample_toISOString refreshing_provider
         (request_with edit_body) (with_ticks S fresh_world)
       = (Returned client1, w1)
       /\ getGoogleService sample_clock sample_toISOString refreshing_provider
            (request_with edit_body) w1
          = (Returned client2, w2)
       /\ calendar_calls
            (snd (editEventController sample_clock sample_toISOString
                    refreshing_provider sample_events_patch sample_events_get
                    sample_is_email (request_with edit_body)
                    (session_of fresh_world)))
          = [EventsGet "evt1"; EventsPatch "evt1" payload]
       /\ obj_get "attendees" payload
          = JsArray (map (fun email => JsObject [("email", email)]) final)
       /\ In (JsString "carol@example.com") final
       /\ ~ In (JsString "bob@example.com") final.
Proof.
  split; [reflexivity|].
  destruct (getGoogleService sample_clock sample_toISOString refreshing_provider
              (request_with edit_body) (with_ticks S fresh_world))
    as [[client1|e] w1] eqn:Hg1; [|vm_compute in Hg1; discriminate Hg1].
  destruct (getGoogleService sample_clock sample_toISOString refreshing_provider
              (request_with edit_body) w1)
    as [[client2|e] w2] eqn:Hg2;
    [|vm_compute in Hg1; injection Hg1 as _ <-; vm_compute in Hg2; discriminate Hg2].
  destruct (X13_edit_participants sample_clock sample_toISOString
              refreshing_provider sample_events_patch sample_events_get
              sample_is_email (request_with edit_body) "evt1" sample_changes
              (session_of fresh_world) client1 client2 w1 w2
              [ ("id", JsString "evt1");
                ("attendees",
                 JsArray [ JsObject [("email", JsString "bob@example.com")];
                           JsObject [("email", JsString "dave@example.com")];
                           JsObject [("displayName", JsString "Room 4")] ]) ]
              [ JsString "bob@example.com"; JsString "dave@example.com";
                JsUndefined ]
              eq_refl eq_refl Hg1 eq_refl eq_refl Hg2)
    as (payload & final & Hcalls & Hatt & Hadd & Hrm & _).
  exists client1, w1, client2, w2, payload, final.
  split; [reflexivity|]. split; [exact Hg2|].
  split; [exact Hcalls|]. split; [exact Hatt|]. split.
  - apply (Hadd ["carol@example.com"]); [reflexivity|now left].
  - apply (Hrm ["bob@example.com"]); [reflexivity|now left|].
    intros add [= <-] [H|[]]. discriminate H.
Defined.

(** A reschedule whose new end precedes its new start. *)
Lemma X14_reschedule_forwards_times_witness :
  parse_rescheduleEvent reschedule_request_body
  = Some ("evt1", "2024-01-01T11:00:00Z", "2024-01-01T10:00:00Z")
  /\ exists client w1,
       getGoogleService sample_clock sample_toISOString refreshing_provider
         (request_with reschedule_request_body) fresh_world
       = (Returned client, w1)
       /\ rescheduleEventController sample_clock sample_toISOString
            refreshing_provider sample_events_patch
            (request_with reschedule_request_body) (session_of fresh_world)
          = (Returned {| api_status := 200;
                         api_json := RescheduledJson true (JsString "evt1") |},
             {| world := w1;
                calendar_calls :=
                  [EventsPatch "evt1"
                     (reschedule_body "2024-01-01T11:00:00Z"
                                      "2024-01-01T10:00:00Z")] |}).
Proof.
  split; [reflexivity|].
  destruct (getGoogleService sample_clock sample_toISOString refreshing_provider
              (request_with reschedule_request_body) fresh_world)
    as [[client|e] w1] eqn:Hg; [|vm_compute in Hg; discriminate Hg].
  exists client, w1. split; [reflexivity|].
  exact (X14_reschedule_forwards_times sample_clock sample_toISOString
           refreshing_provider sample_events_patch
           (request_with reschedule_request_body)
           "evt1" "2024-01-01T11:00:00Z" "2024-01-01T10:00:00Z"
           (session_of fresh_world) client w1 eq_refl Hg).
Defined.

(** The events of one day: a timed one and an all-day one. *)
Lemma X15_fetch_window_and_format_witness :
  parse_fetchEvents sample_coerce_date fetch_body = Some (1704103200000, None)
  /\ exists client w1 first_day formatted,
       getGoogleService sample_clock sample_toISOString refreshing_provider
         (request_with fetch_body) fresh_world
       = (Returned client, w1)
       /\ sample_getDayBounds 1704103200000 "Africa/Lagos" = Returned first_day
       /\ fetchEventsController sample_clock sample_toISOString
            refreshing_provider sample_events_list_with sample_coerce_date
            sample_getDayBounds (request_with fetch_body) (session_of fresh_world)
          = (Returned {| api_status := 200; api_json := EventsJson true formatted |},
             {| world := w1;
                calendar_calls :=
                  [EventsListWith (window_query first_day first_day)] |})
       /\ map fe_title formatted = [JsString "Standup"; JsString EmptyString]
       /\ map fe_start_time formatted
          = [JsString "2024-01-01T09:30:00Z"; JsString "2024-01-01"].
Proof.
  split; [reflexivity|].
  destruct (getGoogleService sample_clock sample_toISOString refreshing_provider
              (request_with fetch_body) fresh_world)
    as [[client|e] w1] eqn:Hg; [|vm_compute in Hg; discriminate Hg].
  destruct (sample_getDayBounds 1704103200000 "Africa/Lagos")
    as [first_day|e] eqn:Hb; [|discriminate Hb].
  destruct (map_outcome format_event listed_events) as [formatted|e] eqn:Hf;
    [|vm_compute in Hf; discriminate Hf].
  destruct (X15_fetch_window_and_format sample_clock sample_toISOString
              refreshing_provider sample_events_list_with sample_coerce_date
              sample_getDayBounds (request_with fetch_body) 1704103200000 None
              (session_of fresh_world) first_day first_day client w1
              (Some listed_events) formatted eq_refl Hb Hb Hg eq_refl Hf)
    as (Hctl & _ & _).
  exists client, w1, first_day, formatted.
  split; [reflexivity|]. split; [reflexivity|]. split; [exact Hctl|].
  vm_compute in Hf. injection Hf as <-. split; reflexivity.
Defined.

(** Scenario A through the controllers: only another user is connected. *)
Lemma X17_not_connected_generic_message_witness :
  unreachable (request_with any_body) (world (session_of bob_only_world))
  /\ (exists w',
        checkConflictController sample_clock sample_toISOString
          refreshing_provider sample_Date_parse sample_events_list
          (request_with any_body) bob_only_world
        = (Returned {| status := 400;
                       json := MessageJson false "Unable to check for conflicts" |},
           w')
        /\ trace w' = [StoreFindOne alice "google"])
  /\ exists s',
       deleteEventController sample_clock sample_toISOString refreshing_provider
         sample_events_delete (request_with any_body) (session_of bob_only_world)
       = (Returned {| api_status := 400;
                      api_json := FailureJson false "Failed to delete event" |}, s')
       /\ calendar_calls s' = []
       /\ trace (world s') = [StoreFindOne alice "google"].
Proof.
  assert (Hu : unreachable (request_with any_body)
                 (world (session_of bob_only_world))).
  { right. exists alice. split; reflexivity. }
  split; [exact Hu|].
  destruct (X17_not_connected_generic_message sample_clock sample_toISOString
              refreshing_provider sample_Date_parse sample_events_list
              sample_events_insert sample_random sample_events_patch
              sample_events_delete sample_events_get sample_events_list_with
              sample_is_email sample_coerce_date sample_getDayBounds
              (request_with any_body) (session_of bob_only_world) Hu)
    as (Hcheck & _ & _ & Hdelete & _).
  split.
  - exact (Hcheck "2024-01-01T10:00:00Z" "2024-01-01T11:00:00Z" eq_refl eq_refl).
  - exact (Hdelete "evt1" eq_refl).
Defined.
